(** * CnStd: the scene-text-detection facade of [cnstd/cn_std.py]

    A shallow embedding of class [CnStd] ([__init__] and [detect]) and the
    properties of its input normalisation, of the per-image orientation
    rectification loop and of the result it hands back.

    Python objects that the facade mutates in place (the per-box dicts of
    ['detected_texts']) live in an explicit object store, addressed by
    location, so that aliasing between boxes is part of the model.  Calls
    into the collaborators ([Detector], [PPDetector], [AngleClassifier],
    [det_model.detect], [angle_clf.__call__]) are recorded in a call log. *)

From Stdlib Require Import String List ZArith QArith Qminmax Bool Lia.
From Stdlib Require Import DecimalString.
Import ListNotations.
Close Scope Q_scope.
Open Scope list_scope.

Set Implicit Arguments.
Set Warnings "-register-all".

(** ** Values *)

(** An RGB pixel buffer of shape (height, width, 3) with channel values in
    [0, 255]: the rows of the picture, top to bottom. *)
Definition Pixel : Type := (N * N * N)%type.
Definition Image : Type := list (list Pixel).

(** The run-time values [detect] can be handed as [img_list]. *)
Inductive pyval : Type :=
| PyStr (s : string)
| PyPath (p : string)
| PyImage (im : Image)
| PyArray (a : Image)
| PyList (xs : list pyval)
| PyTuple (xs : list pyval)
| PyNone
| PyInt (z : Z)
| PyDict (kvs : list (string * pyval)).

(** [type(v)], as printed in the facade's [TypeError]. *)
Inductive pytype : Type :=
| TStr | TPath | TImage | TNdarray | TList | TTuple | TNoneType | TInt | TDict.

Definition type_of (v : pyval) : pytype :=
  match v with
  | PyStr _ => TStr
  | PyPath _ => TPath
  | PyImage _ => TImage
  | PyArray _ => TNdarray
  | PyList _ => TList
  | PyTuple _ => TTuple
  | PyNone => TNoneType
  | PyInt _ => TInt
  | PyDict _ => TDict
  end.

(** [isinstance(v, (list, tuple))] *)
Definition is_list_or_tuple (v : pyval) : bool :=
  match v with
  | PyList _ | PyTuple _ => true
  | _ => false
  end.

(** [isinstance(v, (str, Path, Image.Image, np.ndarray))] *)
Definition is_single_image (v : pyval) : bool :=
  match v with
  | PyStr _ | PyPath _ | PyImage _ | PyArray _ => true
  | _ => false
  end.

(** A keyword dictionary ([kwargs], [angle_clf_configs]): insertion
    ordered, one binding per key. *)
Definition dict : Type := list (string * pyval).

Fixpoint dict_set (d : dict) (k : string) (v : pyval) : dict :=
  match d with
  | [] => [(k, v)]
  | (k', v') :: d' =>
      if String.eqb k' k then (k', v) :: d' else (k', v') :: dict_set d' k v
  end.

(** ['box']: 4 numbers [xmin, ymin, xmax, ymax] when [rotated_bbox] is off,
    5 numbers [x, y, w, h, angle] when it is on.  Coordinates and scores
    are the rationals the floats denote. *)
Inductive Box : Type :=
| Box4 (xmin ymin xmax ymax : Q)
| Box5 (x y w h angle : Q).

(** One entry of ['detected_texts']. *)
Record info : Type := mk_info {
  box : Box;
  score : Q;
  cropped_img : Image
}.

(** Entries of ['detected_texts'] are dict objects, mutated in place by
    [detect]; they are referred to by location. *)
Definition loc : Type := nat.

(** The result for one image. *)
Record out : Type := mk_out {
  rotated_angle : Q;
  detected_texts : list loc
}.

(** The object store: the dict held at every location, and the next
    location an allocation hands out. *)
Record heap : Type := mk_heap {
  cell : loc -> info;
  fresh : loc
}.

Definition upd (f : loc -> info) (l : loc) (i : info) : loc -> info :=
  fun l' => if Nat.eqb l' l then i else f l'.

Definition alloc (h : heap) (i : info) : loc * heap :=
  (fresh h, {| cell := upd (cell h) (fresh h) i; fresh := S (fresh h) |}).

(** [info['cropped_img'] = crop_img] *)
Definition set_crop (i : info) (c : Image) : info :=
  {| box := box i; score := score i; cropped_img := c |}.

(** ** Arguments *)

(** The keyword arguments [__init__] passes on to the detector class. *)
Record model_args : Type := mk_model_args {
  model_name : string;
  auto_rotate_whole_image : bool;
  rotated_bbox : bool;
  context : string;
  model_fp : option string;
  model_backend : string;
  root : pyval
}.

(** The named arguments of [detect] after [img_list]. *)
Record det_args : Type := mk_det_args {
  resized_shape : Z * Z;
  preserve_aspect_ratio : bool;
  min_box_size : Z;
  box_score_thresh : Q;
  batch_size : Z
}.

(** The defaults of [detect]; the one of [box_score_thresh] is the double
    that the literal 0.3 denotes. *)
Definition default_det_args : det_args :=
  {| resized_shape := (768, 768)%Z;
     preserve_aspect_ratio := true;
     min_box_size := 8%Z;
     box_score_thresh := (5404319552844595 # 18014398509481984)%Q;
     batch_size := 20%Z |}.

(** ** Collaborators *)

(** A detector object ([Detector] or [PPDetector]): its [detect] method
    receives the image sequence and the five named arguments, may allocate
    result dicts, and either raises or returns the sequence of per-image
    results, in the documented form: dicts with a ['detected_texts'] list
    of dicts that each have a ['cropped_img'].  Return values of another
    form are outside the model. *)
Record DetModel : Type := mk_DetModel {
  det_detect : pyval -> det_args -> heap -> (string + list out) * heap
}.

(** An [AngleClassifier] object: called on a list of crops, it raises or
    returns a pair, the corrected crops together with per-crop metadata.
    Return values that are no pair are outside the model. *)
Record AngleClf : Type := mk_AngleClf {
  clf_call : list Image -> string + (list Image * list (string * Q))
}.

(** ** Exceptions, call log, and the monad of the facade *)

Inductive exn : Type :=
| TypeError (t : pytype)
    (* 'type %s is not supported now' % str(type(img_list)) *)
| NotImplementedError (name backend : string)
    (* '%s is not supported currently' % ((model_name, model_backend),) *)
| IndexError
    (* outs[0] on an empty sequence *)
| KeyError
    (* subscripting a result dict with 0 *)
| AttributeError (attr : string)
    (* self.angle_clf on an object that never got one *)
| Raised (e : string).
    (* raised inside a collaborator and propagated unchanged *)

Inductive event : Type :=
| NewDetector (a : model_args)
| NewPPDetector (a : model_args)
| NewAngleClassifier (cfg : dict)
| CallDetect (img_list : pyval) (a : det_args)
| CallAngleClf (crops : list Image).

Record world : Type := mk_world {
  objs : heap;
  calls : list event
}.

Definition M (A : Type) : Type := world -> (exn + A) * world.

Definition ret {A : Type} (a : A) : M A := fun w => (inr a, w).

Definition raise {A : Type} (e : exn) : M A := fun w => (inl e, w).

Definition bind {A B : Type} (m : M A) (k : A -> M B) : M B :=
  fun w =>
    match m w with
    | (inl e, w') => (inl e, w')
    | (inr a, w') => k a w'
    end.

Declare Scope py_scope.
Delimit Scope py_scope with py.
Notation "x <- m ;; k" := (bind m (fun x => k))
  (at level 100, m at next level, right associativity) : py_scope.
Notation "m ;;; k" := (bind m (fun _ => k))
  (at level 100, right associativity) : py_scope.
Open Scope py_scope.

Definition log (e : event) : M unit :=
  fun w => (inr tt, {| objs := objs w; calls := calls w ++ [e] |}).

(** Result of a collaborator: an exception propagates, a value returns. *)
Definition lift {A : Type} (r : string + A) : M A :=
  match r with
  | inl e => raise (Raised e)
  | inr a => ret a
  end.

(** ** Class [CnStd] *)

(** The attributes [__init__] leaves on a constructed object.  [angle_clf]
    is set only when [use_angle_clf] is true. *)
Record CnStd : Type := mk_CnStd {
  space : option string;
  det_model : DetModel;
  use_angle_clf : bool;
  angle_clf : option AngleClf
}.

(** The arguments of [__init__] that do not go to the detector class. *)
Record clf_args : Type := mk_clf_args {
  arg_use_angle_clf : bool;
  angle_clf_configs : option dict
}.

Definition space_is (s : option string) (name : string) : bool :=
  match s with
  | Some s' => String.eqb s' name
  | None => false
  end.

Section Facade.

(** [consts.AVAILABLE_MODELS]: the space a (name, backend) pair belongs
    to, [None] when it belongs to none, and the names of the two spaces
    the facade knows a detector class for. *)
Variable get_space : string -> string -> option string.
Variable CNSTD_SPACE : string.
Variable PP_SPACE : string.

(** The constructors of the collaborating classes. *)
Variable Detector : model_args -> string + DetModel.
Variable PPDetector : model_args -> string + DetModel.
Variable AngleClassifier : dict -> string + AngleClf.

(** [det_cls(model_name=..., ..., root=root)] *)
Definition new_det_model (pp : bool) (a : model_args) : M DetModel :=
  if pp
  then log (NewPPDetector a) ;;; lift (PPDetector a)
  else log (NewDetector a) ;;; lift (Detector a).

(** [AngleClassifier] applied to the entries of [angle_clf_configs] as
    keyword arguments. *)
Definition new_angle_clf (cfg : dict) : M AngleClf :=
  log (NewAngleClassifier cfg) ;;; lift (AngleClassifier cfg).

(** [CnStd.__init__]; keyword arguments beyond the named ones are
    accepted and dropped. *)
Definition init (a : model_args) (c : clf_args) (kwargs : dict) : M CnStd :=
  let sp := get_space (model_name a) (model_backend a) in
  pp <- (if space_is sp CNSTD_SPACE then ret false
         else if space_is sp PP_SPACE then ret true
         else raise (NotImplementedError (model_name a) (model_backend a))) ;;
  dm <- new_det_model pp a ;;
  if arg_use_angle_clf c
  then
    let cfg := match angle_clf_configs c with
               | Some (b :: d) => b :: d
               | _ => []
               end in
    let cfg := dict_set cfg "root" (root a) in
    clf <- new_angle_clf cfg ;;
    ret {| space := sp; det_model := dm;
           use_angle_clf := true; angle_clf := Some clf |}
  else
    ret {| space := sp; det_model := dm;
           use_angle_clf := false; angle_clf := None |}.

End Facade.

(** *** [detect] *)

(** What [detect] returns: the dict of one image, or the whole sequence. *)
Inductive result : Type :=
| Single (o : out)
| Multi (outs : list out).

(** [self.det_model.detect(img_list, resized_shape=..., ...)] *)
Definition call_detect (dm : DetModel) (img_list : pyval) (a : det_args)
  : M (list out) :=
  log (CallDetect img_list a) ;;;
  fun w =>
    let (r, h) := det_detect dm img_list a (objs w) in
    lift r {| objs := h; calls := calls w |}.

(** [[info['cropped_img'] for info in out['detected_texts']]] *)
Definition read_crops (texts : list loc) : M (list Image) :=
  fun w => (inr (map (fun l => cropped_img (cell (objs w) l)) texts), w).

(** [self.angle_clf] *)
Definition get_angle_clf (self : CnStd) : M AngleClf :=
  match angle_clf self with
  | Some clf => ret clf
  | None => raise (AttributeError "angle_clf")
  end.

(** [self.angle_clf(crop_img_list)] *)
Definition call_angle_clf (clf : AngleClf) (crops : list Image)
  : M (list Image * list (string * Q)) :=
  log (CallAngleClf crops) ;;; lift (clf_call clf crops).

(** [info['cropped_img'] = crop_img] on the dict at [l] *)
Definition store_crop (l : loc) (c : Image) : M unit :=
  fun w =>
    (inr tt,
     {| objs := {| cell := upd (cell (objs w)) l (set_crop (cell (objs w) l) c);
                   fresh := fresh (objs w) |};
        calls := calls w |}).

(** [for info, crop_img in zip(...): info['cropped_img'] = crop_img] *)
Fixpoint write_crops (pairs : list (loc * Image)) : M unit :=
  match pairs with
  | [] => ret tt
  | (l, c) :: rest => store_crop l c ;;; write_crops rest
  end.

(** The body of [for out in outs]. *)
Definition rectify_out (self : CnStd) (o : out) : M unit :=
  crop_img_list <- read_crops (detected_texts o) ;;
  clf <- get_angle_clf self ;;
  res <- call_angle_clf clf crop_img_list ;;
  write_crops (combine (detected_texts o) (fst res)).

(** [for out in outs: ...] *)
Fixpoint rectify_outs (self : CnStd) (outs : list out) : M unit :=
  match outs with
  | [] => ret tt
  | o :: rest => rectify_out self o ;;; rectify_outs self rest
  end.

(** The [isinstance] cascade at the head of [detect]: the sequence handed
    on to the detector and the [single] flag. *)
Definition normalize (img_list : pyval) : M (pyval * bool) :=
  if is_list_or_tuple img_list then ret (img_list, false)
  else if is_single_image img_list then ret (PyList [img_list], true)
  else raise (TypeError (type_of img_list)).

(** [outs[0] if single else outs] *)
Definition unwrap (single : bool) (outs : list out) : M result :=
  if single
  then match outs with
       | o :: _ => ret (Single o)
       | [] => raise IndexError
       end
  else ret (Multi outs).

(** [CnStd.detect] *)
Definition detect (self : CnStd) (img_list : pyval) (a : det_args)
  (kwargs : dict) : M result :=
  n <- normalize img_list ;;
  let (img_list, single) := n in
  outs <- call_detect (det_model self) img_list a ;;
  (if use_angle_clf self then rectify_outs self outs else ret tt) ;;;
  unwrap single outs.

(** [r[0]] on a value returned by [detect]. *)
Definition item0 (r : result) : exn + result :=
  match r with
  | Multi (o :: _) => inr (Single o)
  | Multi [] => inl IndexError
  | Single _ => inl KeyError
  end.

(** ** The store after the write-back loop *)

(** The cells after [write_crops pairs]: the assignments applied left to
    right. *)
Fixpoint write_cells (pairs : list (loc * Image)) (f : loc -> info)
  : loc -> info :=
  match pairs with
  | [] => f
  | (l, c) :: rest => write_cells rest (upd f l (set_crop (f l) c))
  end.

(** The crops of one image as the store [f] holds them, in box order. *)
Definition crops_of (f : loc -> info) (o : out) : list Image :=
  map (fun l => cropped_img (f l)) (detected_texts o).

(** The arguments of the [angle_clf] calls in a piece of call log. *)
Fixpoint clf_calls (es : list event) : list (list Image) :=
  match es with
  | [] => []
  | CallAngleClf crops :: es' => crops :: clf_calls es'
  | _ :: es' => clf_calls es'
  end.

(** The arguments of the [det_model.detect] calls in a piece of call log. *)
Fixpoint detect_calls (es : list event) : list (pyval * det_args) :=
  match es with
  | [] => []
  | CallDetect v a :: es' => (v, a) :: detect_calls es'
  | _ :: es' => detect_calls es'
  end.

(** Two stores agree on everything but the crops. *)
Definition same_boxes (f g : loc -> info) : Prop :=
  forall l, box (g l) = box (f l) /\ score (g l) = score (f l).

(** All box dicts of all images, in result order. *)
Definition all_texts (outs : list out) : list loc :=
  concat (map detected_texts outs).

(** The events an iteration of the loop, or the whole loop, can add to the
    log: calls of [angle_clf] and nothing else. *)
Definition only_clf_calls (es : list event) : Prop :=
  detect_calls es = [] /\ length (clf_calls es) = length es.

(** Store [g] holds, for image [o], what the write-back of the corrected
    crops [res] onto store [f] leaves: box [i] of the image carries
    corrected crop [i] next to its own box and score, and boxes beyond the
    last corrected crop are as they were. *)
Definition written_back (f g : loc -> info) (o : out) (res : list Image)
  : Prop :=
  forall i l,
    nth_error (detected_texts o) i = Some l ->
    g l = match nth_error res i with
          | Some c => set_crop (f l) c
          | None => f l
          end.

(** The sequence [detect] hands on to the detector, and its [single] flag. *)
Definition forwarded (img_list : pyval) : pyval :=
  if is_list_or_tuple img_list then img_list else PyList [img_list].

(** The image results a value returned by [detect] carries. *)
Definition results (r : result) : list out :=
  match r with
  | Single o => [o]
  | Multi outs => outs
  end.

(** The elements of a list or tuple. *)
Definition elements (v : pyval) : list pyval :=
  match v with
  | PyList xs | PyTuple xs => xs
  | _ => []
  end.

(** ** The detection pipeline behind [det_model] *)

(** Width and height of a box: the extent of [xmin, ymin, xmax, ymax], or
    the [w] and [h] of [x, y, w, h, angle]. *)
Definition box_width (b : Box) : Q :=
  match b with
  | Box4 xmin _ xmax _ => (xmax - xmin)%Q
  | Box5 _ _ w _ _ => w
  end.

Definition box_height (b : Box) : Q :=
  match b with
  | Box4 _ ymin _ ymax => (ymax - ymin)%Q
  | Box5 _ _ _ h _ => h
  end.

Definition Qlt_bool (x y : Q) : bool := negb (Qle_bool y x).

(** Height and width of a pixel buffer. *)
Definition img_height (im : Image) : Z := Z.of_nat (length im).
Definition img_width (im : Image) : Z := Z.of_nat (length (hd [] im)).

(** The raw output of the network for one image: a probability map over
    the resized image. *)
Definition ProbMap : Type := list (list Q).

(** Modelled from the spec: the collaborators of section 6 and the image
    operations whose algorithm the spec leaves to the implementation
    ([Detector], [PPDetector] and what they call are not part of the
    sources at hand).  [load]: reading an input (a path, an image object,
    a raw array) into a pixel buffer, or not (InvalidInput).
    [auto_rotate]: the whole-image skew correction, giving the corrected
    image and the angle applied.  [resample]: the pixels of an image
    scaled to the target shape and padded at the bottom and right.
    [run]: the inference backend, one call on a batch of resized images,
    which fails as a whole or yields the raw output per image.
    [regions]: steps 1 to 3 of BoxDecoder, the regions of a map with
    their bounding rectangle (rotated or axis-aligned, by the flag), in
    resized-image coordinates, and their score, in discovery order.
    [extract]: CropExtractor, the upright patch of a region of an
    image. *)
Record Backend : Type := mk_Backend {
  load : pyval -> option Image;
  auto_rotate : Image -> Image * Q;
  resample : Image -> Z * Z -> bool -> Image;
  run : list Image -> string + list ProbMap;
  regions : ProbMap -> bool -> list (Box * Q);
  extract : Image -> Box -> Image
}.

(** Modelled from the spec: the scale factors of GeometryMapper.resize
    (missing with [Detector]), as (scale_x, scale_y): with the aspect
    ratio preserved the one factor min(target_h/orig_h, target_w/orig_w)
    for both, else target_w/orig_w and target_h/orig_h.  The padding goes
    to the bottom and the right, so the scale factors are all the inverse
    needs. *)
Definition scales (im : Image) (a : det_args) : Q * Q :=
  let sy := (inject_Z (fst (resized_shape a)) / inject_Z (img_height im))%Q in
  let sx := (inject_Z (snd (resized_shape a)) / inject_Z (img_width im))%Q in
  if preserve_aspect_ratio a then (Qmin sy sx, Qmin sy sx) else (sx, sy).

(** Modelled from the spec: GeometryMapper.remap_to_original (missing
    with [Detector]): the inverse of the resize applied to every
    coordinate of a region, of either shape; the angle is no coordinate. *)
Definition remap_to_original (b : Box) (sx sy : Q) : Box :=
  match b with
  | Box4 xmin ymin xmax ymax =>
      Box4 (xmin / sx) (ymin / sy) (xmax / sx) (ymax / sy)
  | Box5 x y w h angle => Box5 (x / sx) (y / sy) (w / sx) (h / sy) angle
  end%Q.

(** Modelled from the spec: step 4 of BoxDecoder (missing with
    [Detector]), on a region in resized-image coordinates with its score:
    discard regions where width < min_box_size or height < min_box_size,
    and regions with score < box_score_thresh. *)
Definition discarded (a : det_args) (c : Box * Q) : bool :=
  Qlt_bool (box_width (fst c)) (inject_Z (min_box_size a))
  || Qlt_bool (box_height (fst c)) (inject_Z (min_box_size a))
  || Qlt_bool (snd c) (box_score_thresh a).

(** Modelled from the spec: BoxDecoder (missing with [Detector]): the
    regions of the map that pass the filter, in discovery order. *)
Definition decode (bk : Backend) (m : model_args) (a : det_args)
  (raw : ProbMap) : list (Box * Q) :=
  filter (fun c => negb (discarded a c)) (regions bk raw (rotated_bbox m)).

(** Modelled from the spec: what BatchDetectionPipeline makes of one image
    and its raw output (missing with [Detector]): the decoded regions,
    each remapped to original-image coordinates and with the patch cut
    out of the image there, in decode order. *)
Definition emitted (bk : Backend) (m : model_args) (a : det_args)
  (im : Image) (raw : ProbMap) : list info :=
  map (fun c =>
         let b := remap_to_original (fst c) (fst (scales im a))
                                    (snd (scales im a)) in
         {| box := b; score := snd c; cropped_img := extract bk im b |})
      (decode bk m a raw).

(** Modelled from the spec: the optional whole-image auto-rotation of
    BatchDetectionPipeline (missing with [Detector]): the image detection
    runs on and the angle recorded, 0 when the step is disabled. *)
Definition prepare (bk : Backend) (m : model_args) (im : Image) : Image * Q :=
  if auto_rotate_whole_image m then auto_rotate bk im else (im, 0%Q).

(** Modelled from the spec: the entries of one DetectionResult (missing
    with [Detector]): a fresh dict object for each emitted region, in
    order. *)
Fixpoint alloc_all (cs : list info) (h : heap) : list loc * heap :=
  match cs with
  | [] => ([], h)
  | c :: cs' =>
      let (l, h1) := alloc h c in
      let (ls, h2) := alloc_all cs' h1 in
      (l :: ls, h2)
  end.

(** Modelled from the spec: per-image result assembly of
    BatchDetectionPipeline (missing with [Detector]): the rotation applied
    and a new dict for each emitted region. *)
Definition assemble (y : Q * list info) (h : heap) : out * heap :=
  let (ls, h') := alloc_all (snd y) h in
  ({| rotated_angle := fst y; detected_texts := ls |}, h').

(** Modelled from the spec: result assembly for the images of one chunk
    (missing with [Detector]), one result per image, in order. *)
Fixpoint assemble_all (ys : list (Q * list info)) (h : heap)
  : list out * heap :=
  match ys with
  | [] => ([], h)
  | y :: ys' =>
      let (o, h1) := assemble y h in
      let (os, h2) := assemble_all ys' h1 in
      (o :: os, h2)
  end.

(** Modelled from the spec: batching of BatchDetectionPipeline (missing
    with [Detector]): chunks of at most [batch_size] images, in order.
    The spec leaves a [batch_size] below 1 open; chunks then hold one
    image. *)
Fixpoint chunks_upto (fuel n : nat) (xs : list (Image * Q))
  : list (list (Image * Q)) :=
  match fuel with
  | O => []
  | S fuel' =>
      match xs with
      | [] => []
      | _ :: _ => firstn n xs :: chunks_upto fuel' n (skipn n xs)
      end
  end.

(** Modelled from the spec: the chunks of a call (missing with
    [Detector]); there are at most as many as images. *)
Definition chunks (batch : Z) (xs : list (Image * Q))
  : list (list (Image * Q)) :=
  chunks_upto (length xs) (Nat.max 1 (Z.to_nat batch)) xs.

(** Modelled from the spec: one chunk of BatchDetectionPipeline (missing
    with [Detector]): the images resized to [resized_shape], one call of
    the backend, and for each image with its raw output the decoded,
    remapped and cropped regions. *)
Definition chunk_yield (bk : Backend) (m : model_args) (a : det_args)
  (c : list (Image * Q)) : string + list (Q * list info) :=
  match run bk (map (fun p => resample bk (fst p) (resized_shape a)
                                       (preserve_aspect_ratio a)) c) with
  | inl e => inl e
  | inr raws =>
      inr (map (fun pr => (snd (fst pr), emitted bk m a (fst (fst pr)) (snd pr)))
               (combine c raws))
  end.

(** Modelled from the spec: the chunks of BatchDetectionPipeline one
    after the other (missing with [Detector]): the results of all chunks
    in order; a backend failure in any chunk fails the call. *)
Fixpoint run_chunks (bk : Backend) (m : model_args) (a : det_args)
  (cs : list (list (Image * Q))) (h : heap) : (string + list out) * heap :=
  match cs with
  | [] => (inr [], h)
  | c :: cs' =>
      match chunk_yield bk m a c with
      | inl e => (inl e, h)
      | inr ys =>
          let (os, h1) := assemble_all ys h in
          match run_chunks bk m a cs' h1 with
          | (inl e, h2) => (inl e, h2)
          | (inr os', h2) => (inr (os ++ os'), h2)
          end
      end
  end.

(** Modelled from the spec: reading the inputs (missing with [Detector]);
    the position of the first unreadable one otherwise. *)
Fixpoint load_all (bk : Backend) (xs : list pyval) (pos : nat)
  : nat + list Image :=
  match xs with
  | [] => inr []
  | x :: xs' =>
      match load bk x with
      | None => inl pos
      | Some im =>
          match load_all bk xs' (S pos) with
          | inl p => inl p
          | inr ims => inr (im :: ims)
          end
      end
  end.

(** Modelled from the spec: the condition of GeometryMapper on a target
    dimension (missing with [Detector]): a positive multiple of 32. *)
Definition multiple_of_32 (z : Z) : bool :=
  (0 <? z)%Z && (z mod 32 =? 0)%Z.

(** Modelled from the spec: [detect] of BatchDetectionPipeline, the method
    [det_model.detect] the facade calls ([Detector] and [PPDetector] are
    missing): InvalidConfiguration unless both target dimensions are
    positive multiples of 32; InvalidInput, naming the position, for an
    input that cannot be read; then the images, auto-rotated if so
    configured, chunk by chunk, all or nothing. *)
Definition pipeline (bk : Backend) (m : model_args) : DetModel :=
  {| det_detect := fun img_list a h =>
       if multiple_of_32 (fst (resized_shape a))
          && multiple_of_32 (snd (resized_shape a))
       then
         match load_all bk (elements img_list) 0 with
         | inl pos =>
             (inl ("InvalidInput at position "
                     ++ NilEmpty.string_of_uint (Nat.to_uint pos))%string, h)
         | inr ims =>
             run_chunks bk m a (chunks (batch_size a) (map (prepare bk m) ims)) h
         end
       else (inl "InvalidConfiguration"%string, h) |}.



(** ** A running example *)

(** The events logged between two worlds. *)
Definition new_calls (w w' : world) : list event :=
  skipn (length (calls w)) (calls w').

(** Turning a patch upside down. *)
Definition flip180 (im : Image) : Image := rev (map (@rev Pixel) im).

(** A classifier that turns every crop and never fails. *)
Definition flip_clf : AngleClf :=
  {| clf_call := fun crops =>
       inr (map flip180 crops, map (fun _ => ("180"%string, 1%Q)) crops) |}.

Definition blank : Image := [[(0, 0, 0)%N]].

Definition patch (n : N) : Image := [[(n, n, n); (0, 0, 0)]; [(1, 1, 1); (n, 0, n)]]%N.

(** The detector of the examples: whatever the images are, it finds the
    same two boxes in each, a rotated one and an upright one, and hands
    out new dicts for them. *)
Definition ex_found : list info :=
  [ {| box := Box5 120 110 40 20 0; score := 8 # 10; cropped_img := patch 7 |};
    {| box := Box4 0 0 50 12; score := 1 # 2; cropped_img := patch 10 |} ]%Q.

Definition ex_det : DetModel :=
  {| det_detect := fun img_list a h =>
       let (os, h') :=
         assemble_all (map (fun _ => (0%Q, ex_found)) (elements img_list)) h in
       (inr os, h') |}.

Definition ex_self : CnStd :=
  {| space := Some "__cnstd__"%string;
     det_model := ex_det;
     use_angle_clf := true;
     angle_clf := Some flip_clf |}.

Definition ex_plain : CnStd :=
  {| space := Some "__cnstd__"%string;
     det_model := ex_det;
     use_angle_clf := false;
     angle_clf := None |}.

Definition w0 : world :=
  {| objs := {| cell := fun _ => {| box := Box4 0 0 0 0; score := 0%Q;
                                    cropped_img := blank |};
                fresh := 0 |};
     calls := [] |}.

Definition img_a : pyval := PyStr "a.jpg".
Definition img_b : pyval := PyArray (patch 200).

(** The registry of the example: one model in each of the two spaces. *)
Definition ex_get_space (name backend : string) : option string :=
  if String.eqb name "db_shufflenet_v2_small" && String.eqb backend "pytorch"
  then Some "__cnstd__"%string
  else if String.eqb name "ch_PP-OCRv3_det" && String.eqb backend "onnx"
  then Some "__paddleocr__"%string
  else None.

Definition ex_Detector (a : model_args) : string + DetModel :=
  inr ex_det.

Definition ex_AngleClassifier (cfg : dict) : string + AngleClf :=
  inr flip_clf.

Definition ex_model_args (name backend : string) : model_args :=
  {| model_name := name;
     auto_rotate_whole_image := false;
     rotated_bbox := true;
     context := "cpu";
     model_fp := None;
     model_backend := backend;
     root := PyStr "~/.cnstd" |}.

Definition ex_init := init ex_get_space "__cnstd__" "__paddleocr__"
  ex_Detector ex_Detector ex_AngleClassifier.

(** ** Two statements of the design notes that [detect] does not meet *)

(** A value of the set {path, image object, raw array, list of these}. *)
Definition path_image_array_or_list_of_these (v : pyval) : bool :=
  is_single_image v
  || match v with
     | PyList xs => forallb is_single_image xs
     | _ => false
     end.

(** "Everything outside {path, image object, raw array, list of these} is
    turned away with the unsupported-type error before any work is done." *)
Definition rejects_all_outside_the_set : Prop :=
  forall self v a kw w,
    path_image_array_or_list_of_these v = false ->
    detect self v a kw w = (inl (TypeError (type_of v)), w).

(** "With rectification on, a [detect] call that returns has called the
    rectifier exactly once, on the crops of all images taken together." *)
Definition one_rectifier_call_per_detect : Prop :=
  forall self v a kw w r w',
    use_angle_clf self = true ->
    detect self v a kw w = (inr r, w') ->
    exists outs h,
      det_detect (det_model self) (forwarded v) a (objs w) = (inr outs, h)
      /\ clf_calls (new_calls w w')
         = [concat (map (crops_of (cell h)) outs)].

Definition ex_input : pyval := PyList [img_a; img_b].

Definition ex_outs : list out :=
  [ {| rotated_angle := 0%Q; detected_texts := [0; 1] |};
    {| rotated_angle := 0%Q; detected_texts := [2; 3] |} ].

(** The store as the detector of the example leaves it on [ex_input]. *)
Definition ex_heap : heap :=
  snd (det_detect ex_det ex_input default_det_args (objs w0)).

(** [h'] has everything [h] has, unchanged. *)
Definition extends (h h' : heap) : Prop :=
  fresh h <= fresh h' /\ forall l, l < fresh h -> cell h' l = cell h l.


(** ** Construction, seen from outside *)

(** [d.get(k)] *)
Fixpoint dict_get (d : dict) (k : string) : option pyval :=
  match d with
  | [] => None
  | (k', v') :: d' => if String.eqb k' k then Some v' else dict_get d' k
  end.

(** The keyword arguments [__init__] calls [AngleClassifier] with: the
    caller's [angle_clf_configs] (none, or an empty one, counting as an
    empty dict) after the assignment to its ['root'] entry. *)
Definition clf_configs (a : model_args) (c : clf_args) : dict :=
  dict_set (match angle_clf_configs c with
            | Some (b :: d) => b :: d
            | _ => []
            end)
           "root" (root a).

(** The branch [__init__] takes on the space of the model: [Some false]
    for [Detector], [Some true] for [PPDetector], [None] for the [else]
    branch. *)
Definition det_cls (sp : option string) (CNSTD_SPACE PP_SPACE : string)
  : option bool :=
  if space_is sp CNSTD_SPACE then Some false
  else if space_is sp PP_SPACE then Some true
  else None.

(** The log entry of the constructor call of a branch. *)
Definition new_det_event (pp : bool) (a : model_args) : event :=
  if pp then NewPPDetector a else NewDetector a.

(** The caller's [angle_clf_configs], [None] read as the empty dict. *)
Definition given_configs (c : clf_args) : dict :=
  match angle_clf_configs c with
  | Some d => d
  | None => []
  end.

(** Constructors of the example that refuse to build. *)
Definition failing_Detector (a : model_args) : string + DetModel :=
  inl "FileNotFoundError"%string.

Definition failing_AngleClassifier (cfg : dict) : string + AngleClf :=
  inl "ModelNotFound"%string.

Definition ex_clf_args : clf_args :=
  {| arg_use_angle_clf := true;
     angle_clf_configs :=
       Some [("model_name"%string, PyStr "ch_ppocr_mobile_v2.0_cls");
             ("root"%string, PyStr "/tmp/models")] |}.

Definition ex_known_args : model_args :=
  ex_model_args "db_shufflenet_v2_small" "pytorch".

(** ** Detectors and classifiers of the examples *)

Definition box_a : Box := Box5 120 110 40 20 0.
Definition box_b : Box := Box4 0 0 50 12.
Definition box_c : Box := Box4 10 10 90 40.

(** A detector that finds two boxes in a first image and one in a second,
    whatever it is given, in three new dicts. *)
Definition two_image_det : DetModel :=
  {| det_detect := fun _ _ h =>
       let n := fresh h in
       let f1 := upd (cell h) n
                     {| box := box_a; score := 8 # 10; cropped_img := patch 1 |} in
       let f2 := upd f1 (S n)
                     {| box := box_b; score := 1 # 2; cropped_img := patch 2 |} in
       let f3 := upd f2 (S (S n))
                     {| box := box_c; score := 7 # 10; cropped_img := patch 3 |} in
       (inr [ {| rotated_angle := 0%Q; detected_texts := [n; S n] |};
              {| rotated_angle := 0%Q; detected_texts := [S (S n)] |} ],
        {| cell := f3; fresh := S (S (S n)) |}) |}.

(** A detector that hands out the result dict of its only image twice. *)
Definition alias_det : DetModel :=
  {| det_detect := fun _ _ h =>
       let n := fresh h in
       let f1 := upd (cell h) n
                     {| box := box_a; score := 8 # 10; cropped_img := patch 1 |} in
       let f2 := upd f1 (S n)
                     {| box := box_b; score := 1 # 2; cropped_img := patch 2 |} in
       let o := {| rotated_angle := 0%Q; detected_texts := [n; S n] |} in
       (inr [o; o], {| cell := f2; fresh := S (S n) |}) |}.

(** A detector that returns no result at all, and one that raises. *)
Definition empty_det : DetModel :=
  {| det_detect := fun _ _ h => (inr [], h) |}.

Definition failing_det : DetModel :=
  {| det_detect := fun _ _ h => (inl "InvalidInput"%string, h) |}.

(** Classifiers: one that returns the crops as they are, one that returns
    the first corrected crop only, one that adds a crop of its own, one
    that refuses batches of fewer than two crops, one that shifts the
    crops by one place. *)
Definition id_clf : AngleClf :=
  {| clf_call := fun crops => inr (crops, []) |}.

Definition short_clf : AngleClf :=
  {| clf_call := fun crops => inr (firstn 1 (map flip180 crops), []) |}.

Definition long_clf : AngleClf :=
  {| clf_call := fun crops => inr (map flip180 crops ++ [blank], []) |}.

Definition picky_clf : AngleClf :=
  {| clf_call := fun crops =>
       if length crops <? 2 then inl "BatchTooSmall"%string
       else inr (map flip180 crops, []) |}.

Definition with_det (dm : DetModel) (clf : option AngleClf) : CnStd :=
  {| space := Some "__cnstd__"%string;
     det_model := dm;
     use_angle_clf := match clf with Some _ => true | None => false end;
     angle_clf := clf |}.

(** An object whose flag was switched on after construction. *)
Definition ex_no_clf : CnStd :=
  {| space := Some "__cnstd__"%string;
     det_model := two_image_det;
     use_angle_clf := true;
     angle_clf := None |}.

(** What [two_image_det] returns on an empty store. *)
Definition two_image_outs : list out :=
  [ {| rotated_angle := 0%Q; detected_texts := [0; 1] |};
    {| rotated_angle := 0%Q; detected_texts := [2] |} ].

(** ** The pipeline as [det_model]: vocabulary and an example *)

(** The contract of the inference backend, for a relation [R] between a
    resized image and a raw output: a call that returns yields one raw
    output per image of the batch, in order, each related to its image. *)
Definition backend_meets (bk : Backend) (R : Image -> ProbMap -> Prop) : Prop :=
  forall batch raws, run bk batch = inr raws -> Forall2 R batch raws.



(** What one image and one raw output make a result of: the angle, and
    the records of the emitted regions. *)
Definition yield_of (bk : Backend) (m : model_args) (a : det_args)
  (R : Image -> ProbMap -> Prop) (p : Image * Q) (y : Q * list info) : Prop :=
  exists raw,
    R (resample bk (fst p) (resized_shape a) (preserve_aspect_ratio a)) raw
    /\ y = (snd p, emitted bk m a (fst p) raw).


(** A backend for the examples.  A path reads as a picture of 256 by 256
    pixels, an array or image object as itself if it has pixels; every
    map shows the same four regions, in resized-image coordinates: a
    rotated one, an upright one of 9 by 9, one that is too small, one
    whose score is too low. *)
Definition picture (h w : nat) : Image := repeat (repeat (0, 0, 0)%N w) h.

Definition ex_regions : list (Box * Q) :=
  [ (Box5 16 16 12 10 0, 8 # 10);
    (Box4 0 0 9 9, 9 # 10);
    (Box4 20 20 24 24, 9 # 10);
    (Box4 1 1 30 30, 1 # 10) ]%Q.

Definition ex_backend : Backend :=
  {| load := fun v =>
       match v with
       | PyStr _ | PyPath _ => Some (picture 256 256)
       | PyImage im | PyArray im =>
           if ((0 <? img_height im) && (0 <? img_width im))%Z
           then Some im else None
       | _ => None
       end;
     auto_rotate := fun im => (im, 0%Q);
     resample := fun im shape _ =>
       picture (Z.to_nat (fst shape)) (Z.to_nat (snd shape));
     run := fun batch => inr (map (fun _ => [[9 # 10]]%Q) batch);
     regions := fun _ _ => ex_regions;
     extract := fun _ _ => blank |}.

Definition ex_pipe_args : model_args := ex_model_args "db_resnet18" "pytorch".

Definition ex_pipe_self : CnStd :=
  {| space := Some "__cnstd__"%string;
     det_model := pipeline ex_backend ex_pipe_args;
     use_angle_clf := true;
     angle_clf := Some flip_clf |}.

(** Detection at half size: pictures of 64 by 64 resized to 32 by 32. *)
Definition ex_half_args : det_args :=
  {| resized_shape := (32, 32)%Z;
     preserve_aspect_ratio := true;
     min_box_size := 8%Z;
     box_score_thresh := box_score_thresh default_det_args;
     batch_size := 1%Z |}.

Definition ex_two_pictures : pyval :=
  PyList [PyArray (picture 64 64); PyArray (picture 64 64)].

(** * Properties *)

(** ** Lemmas on the store *)

Lemma upd_same (f : loc -> info) l i : upd f l i l = i.
Proof. unfold upd. now rewrite Nat.eqb_refl. Qed.

Lemma upd_other (f : loc -> info) l l' i : l' <> l -> upd f l i l' = f l'.
Proof.
  intros Hne. unfold upd.
  destruct (Nat.eqb_spec l' l) as [E | _]; [contradiction | reflexivity].
Qed.

Lemma same_boxes_refl f : same_boxes f f.
Proof. intros l. split; reflexivity. Qed.

Lemma same_boxes_trans f g h :
  same_boxes f g -> same_boxes g h -> same_boxes f h.
Proof.
  intros Hfg Hgh l. destruct (Hfg l) as [B1 S1], (Hgh l) as [B2 S2].
  split; congruence.
Qed.

Lemma same_boxes_upd f l c : same_boxes f (upd f l (set_crop (f l) c)).
Proof.
  intros l'. unfold upd.
  destruct (Nat.eqb_spec l' l) as [-> | _]; split; reflexivity.
Qed.

Lemma write_cells_same_boxes pairs : forall f, same_boxes f (write_cells pairs f).
Proof.
  induction pairs as [| [l c] rest IH]; intros f; simpl.
  - apply same_boxes_refl.
  - eapply same_boxes_trans; [apply same_boxes_upd | apply IH].
Qed.

Lemma write_cells_outside pairs : forall f l,
  ~ In l (map fst pairs) -> write_cells pairs f l = f l.
Proof.
  induction pairs as [| [l0 c] rest IH]; intros f l Hnin; simpl in *.
  - reflexivity.
  - rewrite IH by tauto. apply upd_other. intros ->. tauto.
Qed.

Lemma write_cells_at pairs : forall f i l c,
  NoDup (map fst pairs) ->
  nth_error pairs i = Some (l, c) ->
  write_cells pairs f l = set_crop (f l) c.
Proof.
  induction pairs as [| [l0 c0] rest IH]; intros f i l c Hnd Hi.
  - destruct i; discriminate.
  - simpl in Hnd. inversion Hnd as [| ? ? Hnin Hnd']; subst.
    destruct i as [| i]; simpl in *.
    + injection Hi as -> ->.
      rewrite write_cells_outside by assumption. apply upd_same.
    + rewrite (IH _ i l c Hnd' Hi).
      rewrite upd_other; [reflexivity |].
      intros ->. apply Hnin.
      apply nth_error_In in Hi. now apply (in_map fst) in Hi.
Qed.

Lemma map_fst_combine (A B : Type) (xs : list A) : forall ys : list B,
  length ys = length xs -> map fst (combine xs ys) = xs.
Proof.
  induction xs as [| x xs IH]; intros [| y ys] Hlen; simpl in *;
    try discriminate; try reflexivity.
  f_equal. apply IH. lia.
Qed.

Lemma map_fst_combine_incl (A B : Type) (xs : list A) : forall (ys : list B) x,
  In x (map fst (combine xs ys)) -> In x xs.
Proof.
  induction xs as [| x0 xs IH]; intros [| y ys] x Hin; simpl in *;
    try contradiction.
  destruct Hin as [-> | Hin]; [now left | right; eauto].
Qed.

Lemma NoDup_map_fst_combine (A B : Type) (xs : list A) : forall ys : list B,
  NoDup xs -> NoDup (map fst (combine xs ys)).
Proof.
  induction xs as [| x xs IH]; intros [| y ys] Hnd; simpl; try constructor.
  - inversion Hnd as [| ? ? Hnin Hnd']; subst.
    intros Hin. apply Hnin. eapply map_fst_combine_incl; eassumption.
  - inversion Hnd; subst. now apply IH.
Qed.

Lemma nth_error_combine (A B : Type) (xs : list A) : forall (ys : list B) i x y,
  nth_error xs i = Some x -> nth_error ys i = Some y ->
  nth_error (combine xs ys) i = Some (x, y).
Proof.
  induction xs as [| x0 xs IH]; intros [| y0 ys] [| i] x y Hx Hy;
    simpl in *; try discriminate.
  - congruence.
  - now apply IH.
Qed.

Lemma combine_beyond (A B : Type) (xs : list A) : forall (ys : list B) i x,
  NoDup xs -> nth_error xs i = Some x -> nth_error ys i = None ->
  ~ In x (map fst (combine xs ys)).
Proof.
  induction xs as [| x0 xs IH]; intros [| y0 ys] [| i] x Hnd Hx Hy;
    simpl in *; try discriminate; try tauto.
  inversion Hnd as [| ? ? Hnin Hnd']; subst.
  intros [-> | Hin].
  - apply Hnin. eapply nth_error_In; eassumption.
  - eapply IH; eassumption.
Qed.

(** ** The write-back loop and the per-image body *)

Lemma write_crops_run pairs : forall w,
  write_crops pairs w =
  (inr tt, {| objs := {| cell := write_cells pairs (cell (objs w));
                         fresh := fresh (objs w) |};
              calls := calls w |}).
Proof.
  induction pairs as [| [l c] rest IH]; intros [[f n] es]; simpl.
  - reflexivity.
  - unfold bind, store_crop. simpl. rewrite IH. reflexivity.
Qed.

Lemma rectify_out_run self clf o w :
  angle_clf self = Some clf ->
  rectify_out self o w =
  let crops := crops_of (cell (objs w)) o in
  let es := calls w ++ [CallAngleClf crops] in
  match clf_call clf crops with
  | inl e => (inl (Raised e), {| objs := objs w; calls := es |})
  | inr res =>
      (inr tt,
       {| objs := {| cell := write_cells (combine (detected_texts o) (fst res))
                               (cell (objs w));
                     fresh := fresh (objs w) |};
          calls := es |})
  end.
Proof.
  intros Hclf. unfold rectify_out, bind, read_crops, get_angle_clf,
    call_angle_clf, bind, log, crops_of.
  rewrite Hclf. cbn.
  destruct (clf_call clf _) as [e | res]; cbn.
  - reflexivity.
  - now rewrite write_crops_run.
Qed.

Lemma rectify_out_no_clf self o w :
  angle_clf self = None ->
  rectify_out self o w = (inl (AttributeError "angle_clf"), w).
Proof.
  intros Hclf. unfold rectify_out, bind, read_crops, get_angle_clf.
  now rewrite Hclf.
Qed.

Lemma clf_calls_app es1 es2 :
  clf_calls (es1 ++ es2) = clf_calls es1 ++ clf_calls es2.
Proof.
  induction es1 as [| e es1 IH]; simpl; [reflexivity |].
  destruct e; simpl; now rewrite IH.
Qed.

Lemma detect_calls_app es1 es2 :
  detect_calls (es1 ++ es2) = detect_calls es1 ++ detect_calls es2.
Proof.
  induction es1 as [| e es1 IH]; simpl; [reflexivity |].
  destruct e; simpl; now rewrite IH.
Qed.

Lemma only_clf_calls_nil : only_clf_calls [].
Proof. split; reflexivity. Qed.

Lemma only_clf_calls_cons crops es :
  only_clf_calls es -> only_clf_calls (CallAngleClf crops :: es).
Proof. intros [Hd Hl]. split; simpl; [assumption | now rewrite Hl]. Qed.

(** What one iteration leaves alone, whatever its outcome. *)
Lemma rectify_out_frame self o w r w' :
  rectify_out self o w = (r, w') ->
  fresh (objs w') = fresh (objs w)
  /\ same_boxes (cell (objs w)) (cell (objs w'))
  /\ (forall l, ~ In l (detected_texts o) ->
                cell (objs w') l = cell (objs w) l)
  /\ exists es, calls w' = calls w ++ es /\ only_clf_calls es.
Proof.
  destruct (angle_clf self) as [clf |] eqn:Hclf.
  - rewrite (rectify_out_run _ o w Hclf). cbn zeta.
    destruct (clf_call clf _) as [e | res]; intros [= <- <-]; cbn.
    + split; [reflexivity |]. split; [apply same_boxes_refl |].
      split; [reflexivity |].
      eexists. split; [reflexivity |].
      apply only_clf_calls_cons, only_clf_calls_nil.
    + split; [reflexivity |]. split; [apply write_cells_same_boxes |].
      split.
      * intros l Hnin. apply write_cells_outside.
        intros Hin. apply Hnin. eapply map_fst_combine_incl; eassumption.
      * eexists. split; [reflexivity |].
        apply only_clf_calls_cons, only_clf_calls_nil.
  - rewrite (rectify_out_no_clf _ o w Hclf). intros [= <- <-].
    split; [reflexivity |]. split; [apply same_boxes_refl |].
    split; [reflexivity |].
    exists []. split; [now rewrite app_nil_r | apply only_clf_calls_nil].
Qed.

Lemma only_clf_calls_app es1 es2 :
  only_clf_calls es1 -> only_clf_calls es2 -> only_clf_calls (es1 ++ es2).
Proof.
  intros [D1 L1] [D2 L2]. split.
  - now rewrite detect_calls_app, D1, D2.
  - now rewrite clf_calls_app, !length_app, L1, L2.
Qed.

Lemma in_all_texts_cons l o outs :
  In l (all_texts (o :: outs)) <-> In l (detected_texts o) \/ In l (all_texts outs).
Proof. unfold all_texts. simpl. apply in_app_iff. Qed.

(** What the whole loop leaves alone, whatever its outcome. *)
Lemma rectify_outs_frame self outs : forall w r w',
  rectify_outs self outs w = (r, w') ->
  fresh (objs w') = fresh (objs w)
  /\ same_boxes (cell (objs w)) (cell (objs w'))
  /\ (forall l, ~ In l (all_texts outs) ->
                cell (objs w') l = cell (objs w) l)
  /\ exists es, calls w' = calls w ++ es /\ only_clf_calls es.
Proof.
  induction outs as [| o outs IH]; intros w r w' Hrun; simpl in Hrun.
  - injection Hrun as <- <-.
    split; [reflexivity |]. split; [apply same_boxes_refl |].
    split; [reflexivity |].
    exists []. split; [now rewrite app_nil_r | apply only_clf_calls_nil].
  - unfold bind in Hrun.
    destruct (rectify_out self o w) as [[e | []] w1] eqn:Hone;
      destruct (rectify_out_frame _ _ _ Hone) as (Hf & Hb & Ho & es & Hes & Hon).
    + injection Hrun as <- <-.
      split; [assumption |]. split; [assumption |]. split.
      * intros l Hnin. apply Ho. intros Hin. apply Hnin.
        apply in_all_texts_cons. now left.
      * now exists es.
    + destruct (IH _ _ _ Hrun) as (Hf' & Hb' & Ho' & es' & Hes' & Hon').
      split; [congruence |].
      split; [eapply same_boxes_trans; eassumption |]. split.
      * intros l Hnin. rewrite Ho', Ho; [reflexivity | |];
          intros Hin; apply Hnin; apply in_all_texts_cons; tauto.
      * exists (es ++ es'). split.
        -- now rewrite Hes', Hes, app_assoc.
        -- now apply only_clf_calls_app.
Qed.

Lemma NoDup_app_disjoint (A : Type) (xs ys : list A) x :
  NoDup (xs ++ ys) -> In x xs -> In x ys -> False.
Proof.
  induction xs as [| x0 xs IH]; simpl; intros Hnd Hx Hy; [contradiction |].
  inversion Hnd as [| ? ? Hnin Hnd']; subst.
  destruct Hx as [-> | Hx].
  - apply Hnin, in_or_app. now right.
  - now apply IH.
Qed.

Lemma crops_of_agree f g o :
  (forall l, In l (detected_texts o) -> g l = f l) ->
  crops_of g o = crops_of f o.
Proof.
  intros Hag. unfold crops_of. apply map_ext_in.
  intros l Hin. now rewrite Hag.
Qed.

Lemma in_all_texts l o outs :
  In o outs -> In l (detected_texts o) -> In l (all_texts outs).
Proof.
  intros Ho Hl. unfold all_texts. apply in_concat.
  exists (detected_texts o). split; [now apply in_map | assumption].
Qed.

Lemma write_cells_written_back f o res :
  NoDup (detected_texts o) ->
  written_back f (write_cells (combine (detected_texts o) res) f) o res.
Proof.
  intros Hnd i l Hl.
  destruct (nth_error res i) as [c |] eqn:Hc.
  - eapply write_cells_at.
    + now apply NoDup_map_fst_combine.
    + apply nth_error_combine; eassumption.
  - apply write_cells_outside. eapply combine_beyond; eassumption.
Qed.

(** The loop on a result whose box dicts are distinct objects: one call per
    image on the crops the detector produced, and every corrected crop
    lands on the box its input came from. *)
Lemma rectify_outs_distinct self clf outs : forall w w',
  angle_clf self = Some clf ->
  NoDup (all_texts outs) ->
  rectify_outs self outs w = (inr tt, w') ->
  (exists es, calls w' = calls w ++ es
              /\ only_clf_calls es
              /\ clf_calls es = map (crops_of (cell (objs w))) outs)
  /\ Forall (fun o =>
               exists res meta,
                 clf_call clf (crops_of (cell (objs w)) o) = inr (res, meta)
                 /\ written_back (cell (objs w)) (cell (objs w')) o res)
            outs.
Proof.
  induction outs as [| o outs IH]; intros w w' Hclf Hnd Hrun; simpl in Hrun.
  - injection Hrun as <-. split; [| constructor].
    exists []. split; [now rewrite app_nil_r |].
    split; [apply only_clf_calls_nil | reflexivity].
  - unfold bind in Hrun.
    destruct (rectify_out self o w) as [[e | []] w1] eqn:Hone;
      [discriminate |].
    pose proof (rectify_outs_frame _ _ _ Hrun) as (_ & _ & Hrest & _).
    unfold all_texts in Hnd. simpl in Hnd. fold (all_texts outs) in Hnd.
    assert (Hnd_o : NoDup (detected_texts o))
      by (eapply NoDup_app_remove_r; eassumption).
    assert (Hnd_r : NoDup (all_texts outs))
      by (eapply NoDup_app_remove_l; eassumption).
    rewrite (rectify_out_run _ o w Hclf) in Hone. cbn zeta in Hone.
    destruct (clf_call clf (crops_of (cell (objs w)) o)) as [e | [res meta]]
      eqn:Hcall; [discriminate |].
    injection Hone as <-.
    destruct (IH _ _ Hclf Hnd_r Hrun) as ((es & Hes & Hon & Hargs) & Hall).
    cbn in Hes, Hargs, Hall, Hrest.
    assert (Hag : forall l, In l (all_texts outs) ->
              write_cells (combine (detected_texts o) res) (cell (objs w)) l
              = cell (objs w) l).
    { intros l Hin. apply write_cells_outside. intros Hin'.
      apply map_fst_combine_incl in Hin'.
      eapply NoDup_app_disjoint; eassumption. }
    split.
    + exists (CallAngleClf (crops_of (cell (objs w)) o) :: es).
      split; [now rewrite Hes, <- app_assoc |].
      split; [now apply only_clf_calls_cons |].
      simpl. rewrite Hargs. f_equal.
      apply map_ext_in. intros o' Ho'. apply crops_of_agree.
      intros l Hl. apply Hag. eapply in_all_texts; eassumption.
    + constructor.
      * exists res, meta. split; [assumption |].
        intros i l Hl. rewrite Hrest.
        -- now apply write_cells_written_back.
        -- intros Hin. eapply NoDup_app_disjoint; try eassumption.
           eapply nth_error_In; eassumption.
      * rewrite Forall_forall in Hall |- *. intros o' Ho'.
        destruct (Hall o' Ho') as (res' & meta' & Hcall' & Hwb).
        assert (Hcr : crops_of (write_cells (combine (detected_texts o) res)
                                  (cell (objs w))) o'
                      = crops_of (cell (objs w)) o').
        { apply crops_of_agree. intros l Hl. apply Hag.
          eapply in_all_texts; eassumption. }
        exists res', meta'. split; [now rewrite <- Hcr |].
        intros i l Hl. rewrite (Hwb i l Hl).
        rewrite Hag; [reflexivity |].
        eapply in_all_texts; [eassumption |].
        eapply nth_error_In; eassumption.
Qed.

(** The loop, when it runs to its end: as many calls as images, the call
    for an image carrying as many crops as the image has boxes. *)
Lemma rectify_outs_calls self clf outs : forall w w',
  angle_clf self = Some clf ->
  rectify_outs self outs w = (inr tt, w') ->
  exists es, calls w' = calls w ++ es
             /\ only_clf_calls es
             /\ map (@length Image) (clf_calls es)
                = map (fun o => length (detected_texts o)) outs.
Proof.
  induction outs as [| o outs IH]; intros w w' Hclf Hrun; simpl in Hrun.
  - injection Hrun as <-.
    exists []. split; [now rewrite app_nil_r |].
    split; [apply only_clf_calls_nil | reflexivity].
  - unfold bind in Hrun.
    destruct (rectify_out self o w) as [[e | []] w1] eqn:Hone;
      [discriminate |].
    rewrite (rectify_out_run _ o w Hclf) in Hone. cbn zeta in Hone.
    destruct (clf_call clf (crops_of (cell (objs w)) o)) as [e | res];
      [discriminate |].
    injection Hone as <-.
    destruct (IH _ _ Hclf Hrun) as (es & Hes & Hon & Hlen).
    cbn in Hes.
    exists (CallAngleClf (crops_of (cell (objs w)) o) :: es).
    split; [now rewrite Hes, <- app_assoc |].
    split; [now apply only_clf_calls_cons |].
    simpl. rewrite Hlen. f_equal. unfold crops_of. apply length_map.
Qed.

(** The only ways the loop can fail: the classifier raises, or the object
    has no classifier. *)
Lemma rectify_outs_errors self outs : forall w e w',
  rectify_outs self outs w = (inl e, w') ->
  (exists s, e = Raised s) \/ e = AttributeError "angle_clf".
Proof.
  induction outs as [| o outs IH]; intros w e w' Hrun; simpl in Hrun.
  - discriminate.
  - unfold bind in Hrun.
    destruct (rectify_out self o w) as [[e' | []] w1] eqn:Hone.
    + injection Hrun as -> _.
      destruct (angle_clf self) as [clf |] eqn:Hclf.
      * rewrite (rectify_out_run _ o w Hclf) in Hone. cbn zeta in Hone.
        destruct (clf_call clf _) as [s | res]; [| discriminate].
        injection Hone as <- _. left. now exists s.
      * rewrite (rectify_out_no_clf _ o w Hclf) in Hone.
        injection Hone as <- _. now right.
    + eapply IH; eassumption.
Qed.

(** The loop reads the store and only appends to the log: started from the
    same store under two logs, it ends the same way, in the same store,
    having appended the same events. *)
Lemma rectify_outs_log self outs : forall h es1 es2,
  exists r h' es,
    rectify_outs self outs {| objs := h; calls := es1 |}
    = (r, {| objs := h'; calls := es1 ++ es |})
    /\ rectify_outs self outs {| objs := h; calls := es2 |}
       = (r, {| objs := h'; calls := es2 ++ es |}).
Proof.
  induction outs as [| o outs IH]; intros h es1 es2; simpl.
  - exists (inr tt), h, []. now rewrite !app_nil_r.
  - unfold bind. destruct (angle_clf self) as [clf |] eqn:Hclf.
    + rewrite !(rectify_out_run _ o _ Hclf). cbn.
      destruct (clf_call clf (crops_of (cell h) o)) as [s | res].
      * exists (inl (Raised s)), h, [CallAngleClf (crops_of (cell h) o)].
        split; reflexivity.
      * match goal with
        | |- context [rectify_outs self outs {| objs := ?h1; calls := _ |}] =>
            destruct (IH h1 (es1 ++ [CallAngleClf (crops_of (cell h) o)])
                            (es2 ++ [CallAngleClf (crops_of (cell h) o)]))
              as (r & h' & es & H1 & H2)
        end.
        exists r, h', (CallAngleClf (crops_of (cell h) o) :: es).
        rewrite H1, H2, <- !app_assoc. cbn.
        destruct r as [e | []]; split; reflexivity.
    + rewrite !(rectify_out_no_clf _ o _ Hclf).
      exists (inl (AttributeError "angle_clf")), h, [].
      now rewrite !app_nil_r.
Qed.

(** ** [detect], step by step *)

Lemma detect_run self v a kw w :
  detect self v a kw w =
  if is_list_or_tuple v || is_single_image v
  then
    let es := calls w ++ [CallDetect (forwarded v) a] in
    match det_detect (det_model self) (forwarded v) a (objs w) with
    | (inl e, h) => (inl (Raised e), {| objs := h; calls := es |})
    | (inr outs, h) =>
        match (if use_angle_clf self then rectify_outs self outs else ret tt)
                {| objs := h; calls := es |} with
        | (inl e, w2) => (inl e, w2)
        | (inr _, w2) => unwrap (negb (is_list_or_tuple v)) outs w2
        end
    end
  else (inl (TypeError (type_of v)), w).
Proof.
  unfold detect, bind, normalize, call_detect, bind, log, forwarded.
  destruct v; cbn;
    try reflexivity;
    match goal with
    | |- context [det_detect ?dm ?x a (objs w)] =>
        destruct (det_detect dm x a (objs w)) as [[e | outs] h]; cbn;
        try reflexivity
    end.
Qed.

(** What a [detect] call that returns has gone through. *)
Lemma detect_returns self v a kw w r w' :
  detect self v a kw w = (inr r, w') ->
  exists outs h,
    det_detect (det_model self) (forwarded v) a (objs w) = (inr outs, h)
    /\ (if use_angle_clf self then rectify_outs self outs else ret tt)
         {| objs := h; calls := calls w ++ [CallDetect (forwarded v) a] |}
       = (inr tt, w')
    /\ unwrap (negb (is_list_or_tuple v)) outs w' = (inr r, w').
Proof.
  rewrite detect_run.
  destruct (is_list_or_tuple v || is_single_image v); [| discriminate].
  cbn zeta.
  destruct (det_detect _ _ _ _) as [[e | outs] h]; [discriminate |].
  match goal with
  | |- context [match ?X with (_, _) => _ end] =>
      destruct X as [[e | []] w2] eqn:Hrect; [discriminate |]
  end.
  intros Hun. exists outs, h. split; [reflexivity |].
  assert (w2 = w') as ->.
  { unfold unwrap in Hun.
    destruct (negb _); [destruct outs |]; cbn in Hun;
      injection Hun; congruence || discriminate. }
  split; assumption.
Qed.

Lemma unwrap_results single outs w r w' :
  unwrap single outs w = (inr r, w') ->
  r = (if single then Single (hd {| rotated_angle := 0%Q; detected_texts := [] |} outs)
       else Multi outs)
  /\ results r = (if single then firstn 1 outs else outs)
  /\ (single = true -> outs <> []).
Proof.
  unfold unwrap. destruct single.
  - destruct outs as [| o outs]; cbn; intros [= <- <-] || intros [=].
    repeat split; discriminate.
  - cbn. intros [= <- <-]. repeat split. discriminate.
Qed.

(** ** The rectifier is called image by image *)

Lemma new_calls_app w w' es : calls w' = calls w ++ es -> new_calls w w' = es.
Proof.
  intros Hes. unfold new_calls. rewrite Hes.
  rewrite skipn_app, Nat.sub_diag, skipn_all. reflexivity.
Qed.

Lemma only_clf_calls_map es :
  only_clf_calls es -> es = map CallAngleClf (clf_calls es).
Proof.
  intros [_ Hlen]. induction es as [| e es IH]; [reflexivity |].
  assert (Hle : forall es', length (clf_calls es') <= length es').
  { clear. induction es' as [| e es' IH]; simpl; [lia |].
    destruct e; simpl; lia. }
  destruct e; simpl in *; try (specialize (Hle es); lia).
  f_equal. apply IH. lia.
Qed.

(** The loop when it runs to its end on any object: with a classifier it
    makes one call per image; without one it can only have had nothing to
    do. *)
Lemma rectify_outs_returns self outs w w' :
  rectify_outs self outs w = (inr tt, w') ->
  exists es, calls w' = calls w ++ es
             /\ only_clf_calls es
             /\ map (@length Image) (clf_calls es)
                = map (fun o => length (detected_texts o)) outs
             /\ (NoDup (all_texts outs) ->
                 clf_calls es = map (crops_of (cell (objs w))) outs).
Proof.
  intros Hrun. destruct (angle_clf self) as [clf |] eqn:Hclf.
  - destruct (rectify_outs_calls _ _ _ Hclf Hrun) as (es & Hes & Hon & Hlen).
    exists es. repeat split; try assumption; try apply Hon.
    intros Hnd.
    destruct (rectify_outs_distinct _ _ _ Hclf Hnd Hrun)
      as ((es' & Hes' & _ & Hargs) & _).
    rewrite Hes in Hes'. apply app_inv_head in Hes'. now subst es'.
  - destruct outs as [| o outs]; simpl in Hrun.
    + injection Hrun as <-. exists []. rewrite app_nil_r.
      repeat split; reflexivity.
    + unfold bind in Hrun. rewrite (rectify_out_no_clf _ o w Hclf) in Hrun.
      discriminate.
Qed.

(** C2, as it holds.  With rectification on, a [detect] call that returns
    has logged the detector call and then exactly one rectifier call per
    image result, in result order: the call for an image carries one crop
    per box of that image, and, when the box dicts are distinct objects,
    exactly the crops the detector produced for that image, in box order.
    It is one batched call per image, neither one per box nor one per
    [detect] call. *)
Theorem rectifier_called_once_per_image self v a kw w r w' :
  use_angle_clf self = true ->
  detect self v a kw w = (inr r, w') ->
  exists outs h batches,
    det_detect (det_model self) (forwarded v) a (objs w) = (inr outs, h)
    /\ new_calls w w' = CallDetect (forwarded v) a :: map CallAngleClf batches
    /\ length batches = length outs
    /\ map (@length Image) batches
       = map (fun o => length (detected_texts o)) outs
    /\ (NoDup (all_texts outs) -> batches = map (crops_of (cell h)) outs).
Proof.
  intros Huse Hrun. apply detect_returns in Hrun.
  destruct Hrun as (outs & h & Hdet & Hrect & _).
  rewrite Huse in Hrect.
  destruct (rectify_outs_returns _ _ _ Hrect) as (es & Hes & Hon & Hlen & Hargs).
  cbn in Hes, Hargs.
  exists outs, h, (clf_calls es).
  split; [assumption |]. split; [| split; [| split]].
  - rewrite <- (only_clf_calls_map Hon).
    apply new_calls_app. now rewrite Hes, <- app_assoc.
  - apply (f_equal (@length nat)) in Hlen. now rewrite !length_map in Hlen.
  - assumption.
  - assumption.
Qed.

(** C2, as stated, fails: on the two images of [ex_input] the call
    returns and the rectifier has been called twice, once with the two
    crops of each image, not once with the four crops of both. *)
Lemma one_rectifier_call_per_detect_counterexample :
  use_angle_clf ex_self = true
  /\ fst (detect ex_self ex_input default_det_args [] w0) = inr (Multi ex_outs)
  /\ clf_calls (calls (snd (detect ex_self ex_input default_det_args [] w0)))
     = [ [patch 7; patch 10]; [patch 7; patch 10] ]
  /\ ~ one_rectifier_call_per_detect.
Proof.
  split; [reflexivity |]. split; [reflexivity |]. split; [reflexivity |].
  intros Hclaim.
  destruct (detect ex_self ex_input default_det_args [] w0)
    as [[e | r] w'] eqn:Hrun; [vm_compute in Hrun; discriminate |].
  destruct (Hclaim ex_self ex_input default_det_args [] w0 r w'
              eq_refl Hrun) as (outs & h & _ & Hcalls).
  apply (f_equal (@length (list Image))) in Hcalls.
  vm_compute in Hrun. injection Hrun as _ <-.
  vm_compute in Hcalls. discriminate.
Qed.

Lemma rectifier_called_once_per_image_witness :
  use_angle_clf ex_self = true
  /\ exists r w',
       detect ex_self ex_input default_det_args [] w0
       = (inr r, w')
       /\ clf_calls (new_calls w0 w')
          = [ [patch 7; patch 10]; [patch 7; patch 10] ].
Proof.
  split; [reflexivity |].
  destruct (detect ex_self ex_input default_det_args [] w0)
    as [[e | r] w'] eqn:Hrun; [vm_compute in Hrun; discriminate |].
  exists r, w'. split; [reflexivity |].
  destruct (@rectifier_called_once_per_image ex_self ex_input
              default_det_args [] w0 r w' eq_refl Hrun)
    as (outs & h & batches & Hdet & Hnew & _ & _ & Hdistinct).
  vm_compute in Hdet. injection Hdet as <- <-.
  rewrite Hnew, Hdistinct.
  - reflexivity.
  - vm_compute. repeat constructor; simpl; intuition discriminate.
Defined.

(** ** The type check at the head of [detect] *)

(** C3, as it holds.  An argument whose own type is none of str, Path, PIL
    image, ndarray, list and tuple makes [detect] raise the unsupported-type
    error, naming that type, before anything else happens: the detector
    and the classifier are not called and no object is created or
    changed.  (Lists and tuples are let through whatever they hold.) *)
Theorem detect_rejects_unsupported_type self v a kw w :
  is_list_or_tuple v = false ->
  is_single_image v = false ->
  detect self v a kw w = (inl (TypeError (type_of v)), w).
Proof.
  intros Hseq Himg. rewrite detect_run, Hseq, Himg. reflexivity.
Qed.

Lemma detect_rejects_unsupported_type_witness :
  is_list_or_tuple (PyInt 42) = false
  /\ is_single_image (PyInt 42) = false
  /\ detect ex_self (PyInt 42) default_det_args [] w0
     = (inl (TypeError TInt), w0).
Proof.
  split; [reflexivity |]. split; [reflexivity |].
  apply (@detect_rejects_unsupported_type ex_self (PyInt 42));
    reflexivity.
Defined.

(** C3, as stated, fails: the list [[42]] is outside {path, image object,
    raw array, list of these}, yet [detect] does not raise on it: it calls
    the detector on it and returns what the detector made of it. *)
Lemma rejects_all_outside_the_set_counterexample :
  path_image_array_or_list_of_these (PyList [PyInt 42]) = false
  /\ fst (detect ex_self (PyList [PyInt 42]) default_det_args [] w0)
     = inr (Multi [ {| rotated_angle := 0%Q; detected_texts := [0; 1] |} ])
  /\ detect_calls
       (calls (snd (detect ex_self (PyList [PyInt 42]) default_det_args [] w0)))
     = [(PyList [PyInt 42], default_det_args)]
  /\ ~ rejects_all_outside_the_set.
Proof.
  split; [reflexivity |]. split; [reflexivity |]. split; [reflexivity |].
  intros Hclaim.
  specialize (Hclaim ex_self (PyList [PyInt 42]) default_det_args [] w0
                eq_refl).
  vm_compute in Hclaim. discriminate.
Qed.

(** C9.  A list or tuple is never turned away by the type check, whatever
    its elements are: [detect] does not raise the unsupported-type error,
    and the first thing it does is call the detector with that very
    sequence and the five named arguments. *)
Theorem detect_forwards_any_sequence self v a kw w :
  is_list_or_tuple v = true ->
  (forall t, fst (detect self v a kw w) <> inl (TypeError t))
  /\ exists es,
       calls (snd (detect self v a kw w)) = calls w ++ CallDetect v a :: es.
Proof.
  intros Hseq. rewrite detect_run, Hseq. cbn.
  assert (Hv : forwarded v = v) by (unfold forwarded; now rewrite Hseq).
  rewrite Hv.
  destruct (det_detect (det_model self) v a (objs w)) as [[e | outs] h].
  - split; [intros t; discriminate |]. now exists [].
  - destruct (use_angle_clf self).
    + destruct (rectify_outs self outs
                  {| objs := h; calls := calls w ++ [CallDetect v a] |})
        as [[e | []] w2] eqn:Hrect;
        destruct (rectify_outs_frame _ _ _ Hrect)
          as (_ & _ & _ & es & Hes & _);
        cbn in Hes; rewrite <- app_assoc in Hes; cbn in Hes.
      * split; [| now exists es].
        intros t Heq. cbn in Heq. injection Heq as ->.
        destruct (rectify_outs_errors _ _ _ Hrect) as [[s Hs] | Hs];
          discriminate.
      * split; [intros t; discriminate |]. now exists es.
    + split; [intros t; discriminate |]. now exists [].
Qed.

Lemma detect_forwards_any_sequence_witness :
  is_list_or_tuple (PyList [PyInt 42; PyNone]) = true
  /\ fst (detect ex_self (PyList [PyInt 42; PyNone]) default_det_args [] w0)
     <> inl (TypeError TList)
  /\ exists es,
       calls (snd (detect ex_self (PyList [PyInt 42; PyNone])
                     default_det_args [] w0))
       = CallDetect (PyList [PyInt 42; PyNone]) default_det_args :: es.
Proof.
  split; [reflexivity |].
  destruct (@detect_forwards_any_sequence ex_self (PyList [PyInt 42; PyNone])
              default_det_args [] w0 eq_refl) as (Hno & es & Hes).
  split; [apply Hno | exists es; exact Hes].
Defined.

(** C8.  The extra keyword arguments of [detect] have no bearing on what
    it does: two calls that differ in nothing else return the same value
    or raise the same exception, leave the same store, and make the same
    calls, with the same arguments, to the detector and the classifier. *)
Theorem detect_ignores_kwargs self v a kw1 kw2 w :
  detect self v a kw1 w = detect self v a kw2 w.
Proof. rewrite !detect_run. reflexivity. Qed.

(** ** Writing the corrected crops back *)

(** C5.  Between what the detector returned and what [detect] returns,
    with rectification on or off, nothing but the ['cropped_img'] of box
    dicts can differ.  The results returned are the detector's own (the
    whole sequence, or its first element for a single image), so every
    ['rotated_angle'] and the number and order of the entries of every
    ['detected_texts'] are as the detector left them; every dict keeps its
    ['box'] and its ['score']; dicts that belong to no result are not
    touched at all; no dict is created. *)
Theorem detect_changes_only_crops self v a kw w r w' outs h :
  det_detect (det_model self) (forwarded v) a (objs w) = (inr outs, h) ->
  detect self v a kw w = (inr r, w') ->
  results r = (if is_list_or_tuple v then outs else firstn 1 outs)
  /\ same_boxes (cell h) (cell (objs w'))
  /\ (forall l, ~ In l (all_texts outs) -> cell (objs w') l = cell h l)
  /\ fresh (objs w') = fresh h.
Proof.
  intros Hdet Hrun. apply detect_returns in Hrun.
  destruct Hrun as (outs' & h' & Hdet' & Hrect & Hun).
  rewrite Hdet in Hdet'. injection Hdet' as <- <-.
  apply unwrap_results in Hun. destruct Hun as (_ & Hres & _).
  split.
  { rewrite Hres. now destruct (is_list_or_tuple v). }
  destruct (use_angle_clf self).
  - destruct (rectify_outs_frame _ _ _ Hrect) as (Hf & Hb & Ho & _).
    cbn in Hf, Hb, Ho. now repeat split; try apply Hb; try apply Ho.
  - injection Hrect as <-. cbn.
    split; [apply same_boxes_refl |]. split; reflexivity.
Qed.

(** C4.  With rectification on, a classifier that returns as many crops as
    it is given, and box dicts that are distinct objects: for every image
    the classifier was called on the crops of that image, in box order,
    and box [i] of the image ends up holding corrected crop [i] of that
    call, next to the box and score it had.  The results returned are the
    detector's own, so the number and order of images and of boxes are
    untouched. *)
Theorem corrected_crops_written_back self clf v a kw w r w' outs h :
  use_angle_clf self = true ->
  angle_clf self = Some clf ->
  (forall crops res meta,
      clf_call clf crops = inr (res, meta) -> length res = length crops) ->
  det_detect (det_model self) (forwarded v) a (objs w) = (inr outs, h) ->
  NoDup (all_texts outs) ->
  detect self v a kw w = (inr r, w') ->
  results r = (if is_list_or_tuple v then outs else firstn 1 outs)
  /\ Forall (fun o =>
       exists res meta,
         clf_call clf (crops_of (cell h) o) = inr (res, meta)
         /\ length res = length (detected_texts o)
         /\ forall i l,
              nth_error (detected_texts o) i = Some l ->
              exists c,
                nth_error res i = Some c
                /\ cell (objs w') l
                   = {| box := box (cell h l); score := score (cell h l);
                        cropped_img := c |})
     outs.
Proof.
  intros Huse Hclf Hcontract Hdet Hnd Hrun. apply detect_returns in Hrun.
  destruct Hrun as (outs' & h' & Hdet' & Hrect & Hun).
  rewrite Hdet in Hdet'. injection Hdet' as <- <-.
  apply unwrap_results in Hun. destruct Hun as (_ & Hres & _).
  split.
  { rewrite Hres. now destruct (is_list_or_tuple v). }
  rewrite Huse in Hrect.
  destruct (rectify_outs_distinct _ _ _ Hclf Hnd Hrect) as (_ & Hall).
  cbn in Hall. rewrite Forall_forall in Hall |- *.
  intros o Ho. destruct (Hall o Ho) as (res & meta & Hcall & Hwb).
  exists res, meta. split; [assumption |].
  assert (Hlen : length res = length (detected_texts o)).
  { rewrite (Hcontract _ _ _ Hcall). unfold crops_of. apply length_map. }
  split; [assumption |].
  intros i l Hl. specialize (Hwb i l Hl).
  destruct (nth_error res i) as [c |] eqn:Hc.
  - exists c. split; [reflexivity | exact Hwb].
  - apply nth_error_None in Hc.
    assert (i < length (detected_texts o))
      by (apply nth_error_Some; congruence).
    lia.
Qed.

Lemma corrected_crops_written_back_witness :
  use_angle_clf ex_self = true
  /\ angle_clf ex_self = Some flip_clf
  /\ det_detect (det_model ex_self) (forwarded ex_input) default_det_args
                (objs w0) = (inr ex_outs, ex_heap)
  /\ NoDup (all_texts ex_outs)
  /\ exists r w',
       detect ex_self ex_input default_det_args [] w0 = (inr r, w')
       /\ results r = ex_outs
       /\ cell (objs w') 0
          = {| box := Box5 120 110 40 20 0; score := 8 # 10;
               cropped_img := flip180 (patch 7) |}
       /\ cell (objs w') 1
          = {| box := Box4 0 0 50 12; score := 1 # 2;
               cropped_img := flip180 (patch 10) |}.
Proof.
  assert (Hnd : NoDup (all_texts ex_outs))
    by (vm_compute; repeat constructor; simpl; intuition discriminate).
  split; [reflexivity |]. split; [reflexivity |]. split; [reflexivity |].
  split; [exact Hnd |].
  destruct (detect ex_self ex_input default_det_args [] w0)
    as [[e | r] w'] eqn:Hrun; [vm_compute in Hrun; discriminate |].
  exists r, w'. split; [reflexivity |].
  destruct (@corrected_crops_written_back ex_self flip_clf ex_input
              default_det_args [] w0 r w' ex_outs ex_heap eq_refl eq_refl)
    as (Hres & Hall).
  - intros crops res meta H. injection H as <- _. apply length_map.
  - reflexivity.
  - exact Hnd.
  - exact Hrun.
  - split; [exact Hres |].
    apply Forall_inv in Hall.
    destruct Hall as (res & meta & Hcall & _ & Hwb).
    injection Hcall as <- _.
    destruct (Hwb 0 0 eq_refl) as (c0 & Hc0 & H0).
    destruct (Hwb 1 1 eq_refl) as (c1 & Hc1 & H1).
    injection Hc0 as <-. injection Hc1 as <-.
    split; [exact H0 | exact H1].
Defined.

Lemma detect_changes_only_crops_witness :
  det_detect (det_model ex_self) (forwarded ex_input) default_det_args
             (objs w0) = (inr ex_outs, ex_heap)
  /\ exists r w',
       detect ex_self ex_input default_det_args [] w0 = (inr r, w')
       /\ results r = ex_outs
       /\ same_boxes (cell ex_heap) (cell (objs w'))
       /\ fresh (objs w') = 4.
Proof.
  split; [reflexivity |].
  destruct (detect ex_self ex_input default_det_args [] w0)
    as [[e | r] w'] eqn:Hrun; [vm_compute in Hrun; discriminate |].
  exists r, w'. split; [reflexivity |].
  destruct (@detect_changes_only_crops ex_self ex_input default_det_args []
              w0 r w' ex_outs ex_heap eq_refl Hrun) as (Hres & Hb & _ & Hf).
  split; [exact Hres |]. split; [exact Hb | exact Hf].
Defined.

(** ** Construction *)

Lemma space_is_false sp name : sp <> Some name -> space_is sp name = false.
Proof.
  intros Hne. destruct sp as [s |]; [| reflexivity]. simpl.
  destruct (String.eqb_spec s name) as [-> | _]; [congruence | reflexivity].
Qed.

(** A constructed object has a classifier exactly when it was asked to
    use one. *)
Lemma init_sets_angle_clf
  (get_space : string -> string -> option string)
  (CNSTD_SPACE PP_SPACE : string)
  (Detector PPDetector : model_args -> string + DetModel)
  (AngleClassifier : dict -> string + AngleClf)
  a c kw w self w' :
  init get_space CNSTD_SPACE PP_SPACE Detector PPDetector AngleClassifier
       a c kw w = (inr self, w') ->
  use_angle_clf self = arg_use_angle_clf c
  /\ (use_angle_clf self = true <-> exists clf, angle_clf self = Some clf).
Proof.
  unfold init, bind.
  set (pick := if space_is _ CNSTD_SPACE then _ else _).
  destruct (pick w) as [[e | pp] w1]; [discriminate |].
  destruct (new_det_model Detector PPDetector pp a w1) as [[e | dm] w2];
    [discriminate |].
  destruct (arg_use_angle_clf c).
  - destruct (new_angle_clf AngleClassifier _ w2) as [[e | clf] w3];
      [discriminate |].
    cbn. intros [= <- _]. cbn. split; [reflexivity |].
    split; [intros _; now exists clf | reflexivity].
  - cbn. intros [= <- _]. cbn. split; [reflexivity |].
    split; [discriminate | intros [clf Hclf]; discriminate].
Qed.

(** C6.  When the space of (model_name, model_backend) is neither the
    CnSTD space nor the PaddleOCR space, [__init__] raises
    NotImplementedError for that pair on the spot: no detector and no
    classifier constructor has been called, no object is created or
    changed, and no [CnStd] object comes into being that [detect] could
    be called on. *)
Theorem init_rejects_unknown_space
  (get_space : string -> string -> option string)
  (CNSTD_SPACE PP_SPACE : string)
  (Detector PPDetector : model_args -> string + DetModel)
  (AngleClassifier : dict -> string + AngleClf)
  a c kw w :
  get_space (model_name a) (model_backend a) <> Some CNSTD_SPACE ->
  get_space (model_name a) (model_backend a) <> Some PP_SPACE ->
  init get_space CNSTD_SPACE PP_SPACE Detector PPDetector AngleClassifier
       a c kw w
  = (inl (NotImplementedError (model_name a) (model_backend a)), w).
Proof.
  intros Hcn Hpp. unfold init, bind.
  rewrite (space_is_false Hcn), (space_is_false Hpp). reflexivity.
Qed.

Lemma init_rejects_unknown_space_witness :
  ex_get_space "db_resnet18" "onnx" <> Some "__cnstd__"%string
  /\ ex_get_space "db_resnet18" "onnx" <> Some "__paddleocr__"%string
  /\ ex_init (ex_model_args "db_resnet18" "onnx")
             {| arg_use_angle_clf := true; angle_clf_configs := None |} [] w0
     = (inl (NotImplementedError "db_resnet18" "onnx"), w0).
Proof.
  split; [discriminate |]. split; [discriminate |].
  apply (@init_rejects_unknown_space ex_get_space "__cnstd__" "__paddleocr__"
           ex_Detector ex_Detector ex_AngleClassifier
           (ex_model_args "db_resnet18" "onnx")); discriminate.
Defined.

(** ** The pipeline: new dicts for the emitted regions *)

Lemma extends_refl h : extends h h.
Proof. split; [lia | reflexivity]. Qed.

Lemma extends_trans h1 h2 h3 : extends h1 h2 -> extends h2 h3 -> extends h1 h3.
Proof.
  intros [F1 C1] [F2 C2]. split; [lia |].
  intros l Hl. rewrite C2 by lia. now apply C1.
Qed.

Lemma all_texts_app os1 os2 :
  all_texts (os1 ++ os2) = all_texts os1 ++ all_texts os2.
Proof. unfold all_texts. now rewrite map_app, concat_app. Qed.

Lemma alloc_all_spec cs : forall h ls h',
  alloc_all cs h = (ls, h') ->
  ls = seq (fresh h) (length cs)
  /\ fresh h' = fresh h + length cs
  /\ extends h h'
  /\ map (cell h') ls = cs.
Proof.
  induction cs as [| c cs IH]; intros h ls h' Hrun; simpl in Hrun.
  - injection Hrun as <- <-.
    split; [reflexivity |]. split; [simpl; lia |].
    split; [apply extends_refl | reflexivity].
  - destruct (alloc_all cs _) as [ls1 h1] eqn:Hrest.
    injection Hrun as <- <-.
    destruct (IH _ _ _ Hrest) as (-> & Hf & [Hle Hc] & Hmap).
    cbn in Hf, Hle, Hc, Hmap |- *.
    split; [reflexivity |]. split; [lia |]. split; [split |].
    + lia.
    + intros l Hl. rewrite Hc by lia. apply upd_other. lia.
    + rewrite Hc by lia. rewrite upd_same. now rewrite Hmap.
Qed.

Lemma map_cell_extends h h' ls :
  extends h h' -> (forall l, In l ls -> l < fresh h) ->
  map (cell h') ls = map (cell h) ls.
Proof.
  intros [_ Hc] Hlt. apply map_ext_in. intros l Hl. apply Hc. now apply Hlt.
Qed.

(** What [assemble_all] hands out: one result per yield, in order, result
    [k] with the angle of yield [k] and dicts that hold its records; all
    dicts are new and distinct. *)
Lemma assemble_all_spec ys : forall h os h',
  assemble_all ys h = (os, h') ->
  length os = length ys
  /\ extends h h'
  /\ (exists n, all_texts os = seq (fresh h) n /\ fresh h' = fresh h + n)
  /\ forall k y,
       nth_error ys k = Some y ->
       exists o, nth_error os k = Some o
                 /\ rotated_angle o = fst y
                 /\ map (cell h') (detected_texts o) = snd y.
Proof.
  induction ys as [| y ys IH]; intros h os h' Hrun; simpl in Hrun.
  - injection Hrun as <- <-.
    split; [reflexivity |]. split; [apply extends_refl |].
    split; [exists 0; split; [reflexivity | lia] |].
    intros [| k] y' Hk; discriminate.
  - unfold assemble in Hrun.
    destruct (alloc_all (snd y) h) as [ls h1] eqn:Hone.
    destruct (assemble_all ys h1) as [os1 h2] eqn:Hrest.
    injection Hrun as <- <-.
    destruct (alloc_all_spec _ _ Hone) as (Hls & Hf1 & Hext1 & Hmap1).
    destruct (IH _ _ _ Hrest) as (Hlen & Hext2 & (n & Hts & Hf2) & Hnth).
    split; [simpl; now rewrite Hlen |].
    split; [eapply extends_trans; eassumption |].
    split.
    { exists (length (snd y) + n). unfold all_texts in *. simpl.
      rewrite Hts, Hls, Hf1, seq_app. split; [reflexivity | lia]. }
    intros [| k] y' Hk; simpl in Hk.
    + injection Hk as <-. eexists. split; [reflexivity |]. cbn.
      split; [reflexivity |].
      rewrite <- Hmap1. apply map_cell_extends; [assumption |].
      intros l Hl. rewrite Hls in Hl. apply in_seq in Hl. lia.
    + destruct (Hnth k y' Hk) as (o & Ho & Hang & Hmap).
      exists o. now repeat split.
Qed.

Lemma assemble_all_app ys1 : forall ys2 h,
  assemble_all (ys1 ++ ys2) h
  = (let (os1, h1) := assemble_all ys1 h in
     let (os2, h2) := assemble_all ys2 h1 in
     (os1 ++ os2, h2)).
Proof.
  induction ys1 as [| y ys1 IH]; intros ys2 h; simpl.
  - now destruct (assemble_all ys2 h).
  - destruct (assemble y h) as [o h1]. rewrite IH.
    destruct (assemble_all ys1 h1) as [os1 h2].
    now destruct (assemble_all ys2 h2).
Qed.

(** ** The pipeline: chunk by chunk is image by image *)

Lemma concat_chunks_upto n : forall fuel xs,
  0 < n -> length xs <= fuel -> concat (chunks_upto fuel n xs) = xs.
Proof.
  induction fuel as [| fuel IH]; intros xs Hn Hlen.
  - destruct xs; [reflexivity | simpl in Hlen; lia].
  - destruct xs as [| x xs]; [reflexivity |].
    cbn [chunks_upto concat]. rewrite IH; [apply firstn_skipn | assumption |].
    rewrite length_skipn.
    change (length (x :: xs)) with (S (length xs)) in *. lia.
Qed.

Lemma concat_chunks batch xs : concat (chunks batch xs) = xs.
Proof. unfold chunks. apply concat_chunks_upto; lia. Qed.

(** A run over chunks that returns has assembled, in one go, what the
    chunks yield one after the other. *)
Lemma run_chunks_spec bk m a cs : forall h os h',
  run_chunks bk m a cs h = (inr os, h') ->
  exists yss,
    Forall2 (fun c ys => chunk_yield bk m a c = inr ys) cs yss
    /\ assemble_all (concat yss) h = (os, h').
Proof.
  induction cs as [| c cs IH]; intros h os h' Hrun; simpl in Hrun.
  - injection Hrun as <- <-. exists []. split; [constructor | reflexivity].
  - destruct (chunk_yield bk m a c) as [e | ys] eqn:Hy; [discriminate |].
    destruct (assemble_all ys h) as [os1 h1] eqn:Hone.
    destruct (run_chunks bk m a cs h1) as [[e | os2] h2] eqn:Hrest;
      [discriminate |].
    injection Hrun as <- <-.
    destruct (IH _ _ _ Hrest) as (yss & Hall & Hasm).
    exists (ys :: yss). split; [now constructor |].
    cbn [concat]. now rewrite assemble_all_app, Hone, Hasm.
Qed.

Lemma Forall2_map_l (A B C : Type) (f : A -> B) (P : B -> C -> Prop) xs :
  forall ys, Forall2 P (map f xs) ys -> Forall2 (fun x y => P (f x) y) xs ys.
Proof.
  induction xs as [| x xs IH]; intros ys H; inversion H; subst;
    constructor; auto.
Qed.

Lemma Forall2_nth_error (A B : Type) (P : A -> B -> Prop) xs ys :
  Forall2 P xs ys ->
  forall k x, nth_error xs k = Some x ->
              exists y, nth_error ys k = Some y /\ P x y.
Proof.
  induction 1 as [| x0 y0 xs ys H0 _ IH]; intros [| k] x Hk;
    simpl in Hk; try discriminate.
  - injection Hk as <-. now exists y0.
  - now apply IH.
Qed.

Lemma Forall2_concat (A B : Type) (P : A -> B -> Prop) xss yss :
  Forall2 (Forall2 P) xss yss -> Forall2 P (concat xss) (concat yss).
Proof.
  induction 1; simpl; [constructor | now apply Forall2_app].
Qed.

Lemma chunk_yield_spec bk m a R c ys :
  backend_meets bk R ->
  chunk_yield bk m a c = inr ys ->
  Forall2 (yield_of bk m a R) c ys.
Proof.
  intros Hbk. unfold chunk_yield.
  destruct (run bk _) as [e | raws] eqn:Hrun; [discriminate |].
  intros [= <-]. apply Hbk in Hrun. apply Forall2_map_l in Hrun.
  induction Hrun as [| p raw c raws Hp _ IH]; simpl; constructor.
  - now exists raw.
  - exact IH.
Qed.

Lemma load_all_spec bk xs : forall pos ims,
  load_all bk xs pos = inr ims ->
  Forall2 (fun x im => load bk x = Some im) xs ims.
Proof.
  induction xs as [| x xs IH]; intros pos ims Hrun; simpl in Hrun.
  - injection Hrun as <-. constructor.
  - destruct (load bk x) as [im |] eqn:Hx; [| discriminate].
    destruct (load_all bk xs (S pos)) as [p | ims'] eqn:Hrest;
      [discriminate |].
    injection Hrun as <-. constructor; [assumption | eapply IH; eassumption].
Qed.

(** The pipeline, result by result: as many results as inputs, result [k]
    made of input [k] alone and of a raw output the backend gave for it;
    the dicts of the results are new and all distinct. *)
Lemma pipeline_aligned bk m R v a h os h' :
  backend_meets bk R ->
  det_detect (pipeline bk m) v a h = (inr os, h') ->
  length os = length (elements v)
  /\ NoDup (all_texts os)
  /\ forall k img,
       nth_error (elements v) k = Some img ->
       exists im raw o,
         load bk img = Some im
         /\ R (resample bk (fst (prepare bk m im)) (resized_shape a)
                        (preserve_aspect_ratio a)) raw
         /\ nth_error os k = Some o
         /\ rotated_angle o = snd (prepare bk m im)
         /\ map (cell h') (detected_texts o)
            = emitted bk m a (fst (prepare bk m im)) raw.
Proof.
  intros Hbk. cbn. destruct (_ && _); [| discriminate].
  destruct (load_all bk (elements v) 0) as [pos | ims] eqn:Hload;
    [discriminate |].
  intros Hrun. apply run_chunks_spec in Hrun.
  destruct Hrun as (yss & Hyss & Hasm).
  apply load_all_spec in Hload.
  assert (Hys : Forall2 (yield_of bk m a R) (map (prepare bk m) ims)
                        (concat yss)).
  { rewrite <- (concat_chunks (batch_size a) (map (prepare bk m) ims)).
    apply Forall2_concat.
    eapply Forall2_impl; [| exact Hyss].
    intros c ys Hc. eapply chunk_yield_spec; eassumption. }
  destruct (assemble_all_spec _ _ Hasm) as (Hlen & _ & (n & Hts & _) & Hnth).
  split.
  { rewrite Hlen, <- (Forall2_length Hys), length_map.
    symmetry. eapply Forall2_length; eassumption. }
  split; [rewrite Hts; apply seq_NoDup |].
  intros k img Hk.
  destruct (Forall2_nth_error Hload _ Hk) as (im & Him & Hl).
  assert (Hp : nth_error (map (prepare bk m) ims) k = Some (prepare bk m im))
    by now apply map_nth_error.
  destruct (Forall2_nth_error Hys _ Hp) as (y & Hy & raw & HR & ->).
  destruct (Hnth _ _ Hy) as (o & Ho & Hang & Hmap).
  exists im, raw, o. now repeat split.
Qed.

(** ** [__init__], step by step *)

Lemma init_run
  (get_space : string -> string -> option string)
  (CNSTD_SPACE PP_SPACE : string)
  (Detector PPDetector : model_args -> string + DetModel)
  (AngleClassifier : dict -> string + AngleClf)
  a c kw w :
  init get_space CNSTD_SPACE PP_SPACE Detector PPDetector AngleClassifier
       a c kw w
  = let sp := get_space (model_name a) (model_backend a) in
    match det_cls sp CNSTD_SPACE PP_SPACE with
    | None =>
        (inl (NotImplementedError (model_name a) (model_backend a)), w)
    | Some pp =>
        let es := calls w ++ [new_det_event pp a] in
        match (if pp then PPDetector a else Detector a) with
        | inl e => (inl (Raised e), {| objs := objs w; calls := es |})
        | inr dm =>
            if arg_use_angle_clf c
            then
              let es' := es ++ [NewAngleClassifier (clf_configs a c)] in
              match AngleClassifier (clf_configs a c) with
              | inl e => (inl (Raised e), {| objs := objs w; calls := es' |})
              | inr clf =>
                  (inr {| space := sp; det_model := dm;
                          use_angle_clf := true; angle_clf := Some clf |},
                   {| objs := objs w; calls := es' |})
              end
            else
              (inr {| space := sp; det_model := dm;
                      use_angle_clf := false; angle_clf := None |},
               {| objs := objs w; calls := es |})
        end
    end.
Proof.
  unfold init, det_cls, bind, new_det_model, new_angle_clf, bind, log,
    new_det_event, clf_configs.
  cbn zeta.
  destruct (space_is _ CNSTD_SPACE); [| destruct (space_is _ PP_SPACE)]; cbn.
  - destruct (Detector a) as [e | dm]; cbn; [reflexivity |].
    destruct (arg_use_angle_clf c); cbn; [| reflexivity].
    destruct (AngleClassifier _) as [e | clf]; reflexivity.
  - destruct (PPDetector a) as [e | dm]; cbn; [reflexivity |].
    destruct (arg_use_angle_clf c); cbn; [| reflexivity].
    destruct (AngleClassifier _) as [e | clf]; reflexivity.
  - reflexivity.
Qed.

Lemma new_calls_mk w h es :
  new_calls w {| objs := h; calls := calls w ++ es |} = es.
Proof. now apply new_calls_app. Qed.

Lemma dict_get_set_same d k v : dict_get (dict_set d k v) k = Some v.
Proof.
  induction d as [| [k' v'] d IH]; simpl.
  - now rewrite String.eqb_refl.
  - destruct (String.eqb k' k) eqn:E; simpl; now rewrite E.
Qed.

Lemma dict_get_set_other d k v k' :
  k' <> k -> dict_get (dict_set d k v) k' = dict_get d k'.
Proof.
  intros Hne. induction d as [| [k0 v0] d IH]; simpl.
  - destruct (String.eqb_spec k k'); [congruence | reflexivity].
  - destruct (String.eqb_spec k0 k) as [-> | Hk]; simpl.
    + destruct (String.eqb_spec k k'); [congruence | reflexivity].
    + destruct (String.eqb k0 k'); [reflexivity | exact IH].
Qed.

Lemma given_configs_or_empty c :
  match angle_clf_configs c with
  | Some (b :: d) => b :: d
  | _ => []
  end = given_configs c.
Proof.
  unfold given_configs. now destruct (angle_clf_configs c) as [[| b d] |].
Qed.

(** X1.  An [__init__] that returns has called exactly one detector
    constructor, [Detector] when the model is in the CnSTD space (also
    when the two space names coincide) and [PPDetector] otherwise, with
    the seven detector arguments as given; after it, and only when
    [use_angle_clf] is set, the [AngleClassifier] constructor, once.  The
    object keeps the space, the detector built, the flag, and the
    classifier built; no box dict is created or changed. *)
Theorem init_returns
  (get_space : string -> string -> option string)
  (CNSTD_SPACE PP_SPACE : string)
  (Detector PPDetector : model_args -> string + DetModel)
  (AngleClassifier : dict -> string + AngleClf)
  a c kw w self w' :
  init get_space CNSTD_SPACE PP_SPACE Detector PPDetector AngleClassifier
       a c kw w = (inr self, w') ->
  let sp := get_space (model_name a) (model_backend a) in
  exists pp,
    det_cls sp CNSTD_SPACE PP_SPACE = Some pp
    /\ (pp = false <-> sp = Some CNSTD_SPACE)
    /\ (pp = true -> sp = Some PP_SPACE)
    /\ (if pp then PPDetector a else Detector a) = inr (det_model self)
    /\ space self = sp
    /\ use_angle_clf self = arg_use_angle_clf c
    /\ angle_clf self
       = (if arg_use_angle_clf c
          then match AngleClassifier (clf_configs a c) with
               | inr clf => Some clf
               | inl _ => None
               end
          else None)
    /\ new_calls w w'
       = new_det_event pp a
         :: (if arg_use_angle_clf c
             then [NewAngleClassifier (clf_configs a c)] else [])
    /\ objs w' = objs w.
Proof.
  intros Hrun sp. subst sp. rewrite init_run in Hrun. cbn zeta in Hrun.
  unfold det_cls in *.
  assert (Hsp : forall sp name, space_is sp name = true <-> sp = Some name).
  { intros [s |] name; simpl; split; try discriminate.
    - intros E. apply String.eqb_eq in E. now subst.
    - intros [= ->]. apply String.eqb_refl. }
  destruct (space_is _ CNSTD_SPACE) eqn:Hcn;
    [| destruct (space_is _ PP_SPACE) eqn:Hpp; [| discriminate]].
  - exists false. destruct (Detector a) as [e | dm]; [discriminate |].
    destruct (arg_use_angle_clf c).
    + destruct (AngleClassifier _) as [e | clf]; [discriminate |].
      injection Hrun as <- <-. cbn.
      repeat split; auto; try (intros; discriminate);
        try (intros _; now apply Hsp).
      apply new_calls_app. cbn. now rewrite <- app_assoc.
    + injection Hrun as <- <-. cbn.
      repeat split; auto; try (intros; discriminate);
        try (intros _; now apply Hsp).
      now apply new_calls_app.
  - exists true. destruct (PPDetector a) as [e | dm]; [discriminate |].
    assert (Hne : get_space (model_name a) (model_backend a)
                  <> Some CNSTD_SPACE).
    { intros E. apply Hsp in E. congruence. }
    destruct (arg_use_angle_clf c).
    + destruct (AngleClassifier _) as [e | clf]; [discriminate |].
      injection Hrun as <- <-. cbn.
      repeat split; auto; try (intros; discriminate);
        try (intros _; now apply Hsp);
        try (intros E; now apply Hne in E).
      apply new_calls_app. cbn. now rewrite <- app_assoc.
    + injection Hrun as <- <-. cbn.
      repeat split; auto; try (intros; discriminate);
        try (intros _; now apply Hsp);
        try (intros E; now apply Hne in E).
      now apply new_calls_app.
Qed.

Lemma init_returns_witness :
  exists self w',
    ex_init ex_known_args ex_clf_args [] w0 = (inr self, w')
    /\ det_model self = ex_det
    /\ space self = Some "__cnstd__"%string
    /\ new_calls w0 w'
       = [ NewDetector ex_known_args;
           NewAngleClassifier
             [("model_name"%string, PyStr "ch_ppocr_mobile_v2.0_cls");
              ("root"%string, PyStr "~/.cnstd")] ].
Proof.
  destruct (ex_init ex_known_args ex_clf_args [] w0) as [[e | self] w'] eqn:Hrun;
    [vm_compute in Hrun; discriminate |].
  exists self, w'. split; [reflexivity |].
  destruct (@init_returns ex_get_space "__cnstd__" "__paddleocr__"
              ex_Detector ex_Detector ex_AngleClassifier
              ex_known_args ex_clf_args [] w0 self w' Hrun)
    as (pp & Hpp & _ & _ & Hdm & Hsp & _ & _ & Hnew & _).
  vm_compute in Hpp. injection Hpp as <-.
  cbn in Hdm. injection Hdm as <-.
  split; [reflexivity |]. split; [exact Hsp |]. exact Hnew.
Defined.

(** X2.  Whenever [__init__] gets as far as the [AngleClassifier]
    constructor, [use_angle_clf] was set and the keyword arguments of that
    call bind ['root'] to the [root] argument of [__init__], whatever
    ['root'] the caller put into [angle_clf_configs]; every other key has
    the value the caller gave it, and no key when the caller gave none. *)
Theorem init_classifier_root
  (get_space : string -> string -> option string)
  (CNSTD_SPACE PP_SPACE : string)
  (Detector PPDetector : model_args -> string + DetModel)
  (AngleClassifier : dict -> string + AngleClf)
  a c kw w cfg :
  In (NewAngleClassifier cfg)
     (new_calls w (snd (init get_space CNSTD_SPACE PP_SPACE Detector
                             PPDetector AngleClassifier a c kw w))) ->
  arg_use_angle_clf c = true
  /\ dict_get cfg "root" = Some (root a)
  /\ forall k, k <> "root"%string ->
               dict_get cfg k = dict_get (given_configs c) k.
Proof.
  rewrite init_run. cbn zeta.
  assert (Hcfg : dict_get (clf_configs a c) "root" = Some (root a)
                 /\ forall k, k <> "root"%string ->
                      dict_get (clf_configs a c) k
                      = dict_get (given_configs c) k).
  { unfold clf_configs. rewrite given_configs_or_empty. split.
    - apply dict_get_set_same.
    - intros k Hk. now apply dict_get_set_other. }
  destruct (det_cls _ _ _) as [pp |].
  - destruct (if pp then PPDetector a else Detector a) as [e | dm].
    + cbn. rewrite new_calls_mk.
      intros [H | []]. destruct pp; discriminate.
    + destruct (arg_use_angle_clf c).
      * assert (Hnew : forall r,
                  In (NewAngleClassifier cfg)
                     (new_calls w
                        {| objs := r;
                           calls := (calls w ++ [new_det_event pp a])
                                    ++ [NewAngleClassifier (clf_configs a c)] |})
                  -> cfg = clf_configs a c).
        { intros r. rewrite <- app_assoc, new_calls_mk.
          intros [H | [H | []]]; [destruct pp; discriminate | congruence]. }
        destruct (AngleClassifier _) as [e | clf]; cbn;
          intros H; apply Hnew in H; subst cfg;
          (split; [reflexivity | exact Hcfg]).
      * cbn. rewrite new_calls_mk.
        intros [H | []]. destruct pp; discriminate.
  - cbn. unfold new_calls. rewrite skipn_all. intros [].
Qed.

Lemma init_classifier_root_witness :
  In (NewAngleClassifier
        [("model_name"%string, PyStr "ch_ppocr_mobile_v2.0_cls");
         ("root"%string, PyStr "~/.cnstd")])
     (new_calls w0 (snd (ex_init ex_known_args ex_clf_args [] w0)))
  /\ dict_get (given_configs ex_clf_args) "root" = Some (PyStr "/tmp/models")
  /\ dict_get [("model_name"%string, PyStr "ch_ppocr_mobile_v2.0_cls");
               ("root"%string, PyStr "~/.cnstd")] "root"
     = Some (root ex_known_args).
Proof.
  assert (Hin : In (NewAngleClassifier
                      [("model_name"%string, PyStr "ch_ppocr_mobile_v2.0_cls");
                       ("root"%string, PyStr "~/.cnstd")])
                   (new_calls w0 (snd (ex_init ex_known_args ex_clf_args [] w0))))
    by (vm_compute; right; left; reflexivity).
  split; [exact Hin |]. split; [reflexivity |].
  exact (proj1 (proj2 (@init_classifier_root ex_get_space "__cnstd__"
                         "__paddleocr__" ex_Detector ex_Detector
                         ex_AngleClassifier ex_known_args ex_clf_args [] w0
                         _ Hin))).
Defined.

(** X3.  An [__init__] that raises does so in one of three ways, and in
    none of them is a box dict created or changed.  The space is unknown:
    NotImplementedError, and no constructor was called.  The detector
    constructor raised: its exception, and the classifier constructor was
    not called, even with [use_angle_clf] set.  The classifier constructor
    raised: its exception, after the detector had been built. *)
Theorem init_raises
  (get_space : string -> string -> option string)
  (CNSTD_SPACE PP_SPACE : string)
  (Detector PPDetector : model_args -> string + DetModel)
  (AngleClassifier : dict -> string + AngleClf)
  a c kw w err w' :
  init get_space CNSTD_SPACE PP_SPACE Detector PPDetector AngleClassifier
       a c kw w = (inl err, w') ->
  let sp := get_space (model_name a) (model_backend a) in
  objs w' = objs w
  /\ ((det_cls sp CNSTD_SPACE PP_SPACE = None
       /\ err = NotImplementedError (model_name a) (model_backend a)
       /\ new_calls w w' = [])
      \/ (exists pp e,
            det_cls sp CNSTD_SPACE PP_SPACE = Some pp
            /\ (if pp then PPDetector a else Detector a) = inl e
            /\ err = Raised e
            /\ new_calls w w' = [new_det_event pp a])
      \/ (exists pp dm e,
            det_cls sp CNSTD_SPACE PP_SPACE = Some pp
            /\ (if pp then PPDetector a else Detector a) = inr dm
            /\ arg_use_angle_clf c = true
            /\ AngleClassifier (clf_configs a c) = inl e
            /\ err = Raised e
            /\ new_calls w w'
               = [new_det_event pp a;
                  NewAngleClassifier (clf_configs a c)])).
Proof.
  intros Hrun sp. subst sp. rewrite init_run in Hrun. cbn zeta in Hrun.
  destruct (det_cls _ _ _) as [pp |].
  - destruct (if pp then PPDetector a else Detector a) as [e | dm] eqn:Hctor.
    + injection Hrun as <- <-. cbn. split; [reflexivity |].
      right. left. exists pp, e. rewrite new_calls_mk. now repeat split.
    + destruct (arg_use_angle_clf c) eqn:Huse; [| discriminate].
      destruct (AngleClassifier _) as [e | clf] eqn:Hclf; [| discriminate].
      injection Hrun as <- <-. cbn. split; [reflexivity |].
      right. right. exists pp, dm, e.
      rewrite <- app_assoc, new_calls_mk. now repeat split.
  - injection Hrun as <- <-. split; [reflexivity |]. left.
    unfold new_calls. rewrite skipn_all. now repeat split.
Qed.

Lemma init_raises_witness :
  exists w',
    init ex_get_space "__cnstd__" "__paddleocr__" failing_Detector
         ex_Detector ex_AngleClassifier ex_known_args ex_clf_args [] w0
    = (inl (Raised "FileNotFoundError"), w')
    /\ new_calls w0 w' = [NewDetector ex_known_args].
Proof.
  destruct (init ex_get_space "__cnstd__" "__paddleocr__" failing_Detector
              ex_Detector ex_AngleClassifier ex_known_args ex_clf_args [] w0)
    as [[err | self] w'] eqn:Hrun; [| vm_compute in Hrun; discriminate].
  destruct (@init_raises _ _ _ _ _ _ _ _ _ _ _ _ Hrun)
    as (_ & [(Hnone & _) | [(pp & e & Hpp & Hctor & Herr & Hnew)
                           | (pp & dm & e & Hpp & Hctor & _)]]).
  - vm_compute in Hnone. discriminate.
  - vm_compute in Hpp. injection Hpp as <-.
    cbn in Hctor. injection Hctor as <-. subst err.
    exists w'. split; [reflexivity | exact Hnew].
  - vm_compute in Hpp. injection Hpp as <-. cbn in Hctor. discriminate.
Defined.

(** ** Failure modes of [detect] *)

Lemma rectify_outs_attribute_error self outs : forall w s w',
  rectify_outs self outs w = (inl (AttributeError s), w') ->
  angle_clf self = None /\ outs <> [].
Proof.
  induction outs as [| o outs IH]; intros w s w' Hrun; simpl in Hrun.
  - discriminate.
  - split; [| discriminate].
    unfold bind in Hrun.
    destruct (angle_clf self) as [clf |] eqn:Hclf; [| reflexivity].
    rewrite (rectify_out_run _ o w Hclf) in Hrun. cbn zeta in Hrun.
    destruct (clf_call clf _) as [e | res]; [discriminate |].
    apply IH in Hrun. destruct Hrun as [Hnone _]. congruence.
Qed.

(** The loop, whatever its outcome, calls the classifier at most once per
    result. *)
Lemma rectify_outs_count self outs : forall w r w',
  rectify_outs self outs w = (r, w') ->
  exists es, calls w' = calls w ++ es
             /\ only_clf_calls es
             /\ length (clf_calls es) <= length outs.
Proof.
  induction outs as [| o outs IH]; intros w r w' Hrun; simpl in Hrun.
  - injection Hrun as <- <-. exists []. rewrite app_nil_r.
    split; [reflexivity |]. split; [apply only_clf_calls_nil | simpl; lia].
  - unfold bind in Hrun.
    destruct (angle_clf self) as [clf |] eqn:Hclf.
    + rewrite (rectify_out_run _ o w Hclf) in Hrun. cbn zeta in Hrun.
      destruct (clf_call clf _) as [e | res].
      * injection Hrun as <- <-. cbn.
        exists [CallAngleClf (crops_of (cell (objs w)) o)].
        split; [reflexivity |].
        split; [apply only_clf_calls_cons, only_clf_calls_nil | simpl; lia].
      * apply IH in Hrun. destruct Hrun as (es & Hes & Hon & Hlen).
        cbn in Hes.
        exists (CallAngleClf (crops_of (cell (objs w)) o) :: es).
        split; [now rewrite Hes, <- app_assoc |].
        split; [now apply only_clf_calls_cons | simpl; lia].
    + rewrite (rectify_out_no_clf _ o w Hclf) in Hrun.
      injection Hrun as <- <-. exists []. rewrite app_nil_r.
      split; [reflexivity |]. split; [apply only_clf_calls_nil | simpl; lia].
Qed.

(** X4.  The exceptions [detect] can raise, and when, given collaborators
    that raise or return values of the documented form (the detector a
    sequence of result dicts whose ['detected_texts'] entries have a
    ['cropped_img'], the classifier a pair), as [DetModel] and [AngleClf]
    type them.  TypeError: the argument is neither list, tuple, str, Path,
    PIL image nor ndarray, and nothing was done.  An exception of the
    detector or of the classifier, passed on as it is.  IndexError: a
    single image was given and the detector returned an empty sequence.
    AttributeError: [use_angle_clf] is set on an object without classifier
    and the detector returned at least one result.  Nothing else is raised
    then. *)
Theorem detect_raises self v a kw w err w' :
  detect self v a kw w = (inl err, w') ->
  (err = TypeError (type_of v)
   /\ is_list_or_tuple v = false /\ is_single_image v = false /\ w' = w)
  \/ (exists e, err = Raised e)
  \/ (err = IndexError
      /\ is_single_image v = true
      /\ exists h, det_detect (det_model self) (PyList [v]) a (objs w)
                   = (inr [], h))
  \/ (err = AttributeError "angle_clf"
      /\ use_angle_clf self = true /\ angle_clf self = None
      /\ exists outs h,
           det_detect (det_model self) (forwarded v) a (objs w)
           = (inr outs, h) /\ outs <> []).
Proof.
  rewrite detect_run.
  destruct (is_list_or_tuple v) eqn:Hseq; cbn [orb negb].
  - cbn zeta. destruct (det_detect _ _ _ _) as [[e | outs] h] eqn:Hdet.
    + intros [= <- _]. right. left. now exists e.
    + destruct (use_angle_clf self) eqn:Huse.
      * destruct (rectify_outs self outs _) as [[e | []] w2] eqn:Hrect;
          [| discriminate].
        intros [= <- <-].
        destruct (rectify_outs_errors _ _ _ Hrect) as [[s ->] | ->].
        -- right. left. now exists s.
        -- apply rectify_outs_attribute_error in Hrect.
           destruct Hrect as [Hnone Hne].
           right. right. right. repeat split; try assumption.
           now exists outs, h.
      * discriminate.
  - destruct (is_single_image v) eqn:Himg; cbn zeta.
    + assert (Hfwd : forwarded v = PyList [v])
        by (unfold forwarded; now rewrite Hseq).
      rewrite Hfwd.
      destruct (det_detect _ _ _ _) as [[e | outs] h] eqn:Hdet.
      * intros [= <- _]. right. left. now exists e.
      * destruct (use_angle_clf self) eqn:Huse.
        -- destruct (rectify_outs self outs _) as [[e | []] w2] eqn:Hrect.
           ++ intros [= <- <-].
              destruct (rectify_outs_errors _ _ _ Hrect) as [[s ->] | ->].
              ** right. left. now exists s.
              ** apply rectify_outs_attribute_error in Hrect.
                 destruct Hrect as [Hnone Hne].
                 right. right. right. repeat split; try assumption.
                 now exists outs, h.
           ++ destruct outs as [| o outs]; [| discriminate].
              intros [= <- _]. right. right. left.
              repeat split. now exists h.
        -- cbn. destruct outs as [| o outs]; [| discriminate].
           intros [= <- _]. right. right. left.
           repeat split. now exists h.
    + intros [= <- <-]. left. now repeat split.
Qed.

Lemma detect_raises_witness :
  exists w',
    detect ex_no_clf img_a default_det_args [] w0
    = (inl (AttributeError "angle_clf"), w')
    /\ angle_clf ex_no_clf = None.
Proof.
  destruct (detect ex_no_clf img_a default_det_args [] w0)
    as [[err | r] w'] eqn:Hrun; [| vm_compute in Hrun; discriminate].
  exists w'. split; [| reflexivity].
  destruct (@detect_raises _ _ _ _ _ _ _ Hrun)
    as [(_ & _ & H & _) | [(e & ->) | [(_ & _ & h & H) | (-> & _)]]].
  - discriminate.
  - vm_compute in Hrun. discriminate.
  - vm_compute in H. discriminate.
  - reflexivity.
Defined.

Lemma detect_attribute_error self v a kw w s w' :
  detect self v a kw w = (inl (AttributeError s), w') ->
  use_angle_clf self = true /\ angle_clf self = None.
Proof.
  rewrite detect_run.
  destruct (is_list_or_tuple v || is_single_image v); [| discriminate].
  cbn zeta. destruct (det_detect _ _ _ _) as [[e | outs] h]; [discriminate |].
  destruct (use_angle_clf self).
  - destruct (rectify_outs self outs _) as [[e | []] w2] eqn:Hrect.
    + intros [= -> _]. apply rectify_outs_attribute_error in Hrect.
      now destruct Hrect.
    + unfold unwrap. destruct (negb _); [destruct outs |]; discriminate.
  - cbn. unfold unwrap. destruct (negb _); [destruct outs |]; discriminate.
Qed.

(** What [detect] logs, whatever its outcome: nothing when the type check
    fails, else the detector call followed by classifier calls only, at
    most one per result. *)
Lemma detect_log self v a kw w :
  exists batches,
    new_calls w (snd (detect self v a kw w))
    = (if is_list_or_tuple v || is_single_image v
       then CallDetect (forwarded v) a :: map CallAngleClf batches
       else [])
    /\ (use_angle_clf self = false -> batches = [])
    /\ forall outs h,
         det_detect (det_model self) (forwarded v) a (objs w) = (inr outs, h) ->
         length batches <= length outs.
Proof.
  rewrite detect_run.
  destruct (is_list_or_tuple v || is_single_image v).
  - cbn zeta.
    destruct (det_detect _ _ _ _) as [[e | outs] h].
    + exists []. cbn. rewrite new_calls_mk.
      split; [reflexivity |]. split; [reflexivity | discriminate].
    + assert (Hun : forall w2,
                calls (snd (unwrap (negb (is_list_or_tuple v)) outs w2))
                = calls w2).
      { intros w2. unfold unwrap.
        destruct (negb _); [destruct outs |]; reflexivity. }
      destruct (use_angle_clf self).
      * destruct (rectify_outs self outs _) as [[e | []] w2] eqn:Hrect;
          destruct (rectify_outs_count _ _ _ Hrect) as (es & Hes & Hon & Hlen);
          cbn in Hes; exists (clf_calls es);
          (split; [| split; [discriminate |
                             intros outs' h' [= <- _]; exact Hlen]]).
        -- cbn. rewrite <- (only_clf_calls_map Hon).
           apply new_calls_app. now rewrite Hes, <- app_assoc.
        -- rewrite <- (only_clf_calls_map Hon).
           apply new_calls_app. now rewrite Hun, Hes, <- app_assoc.
      * exists []. cbn.
        split; [| split; [reflexivity | intros; lia]].
        apply new_calls_app. now rewrite Hun.
  - exists []. cbn. unfold new_calls. rewrite skipn_all.
    split; [reflexivity |]. split; [reflexivity | intros; lia].
Qed.

(** X5.  An object that [__init__] has returned never makes [detect]
    raise AttributeError: it has a classifier whenever rectification is
    on.  When it was built with [use_angle_clf] off, no [detect] call on
    it ever calls a classifier. *)
Theorem built_object_is_consistent
  (get_space : string -> string -> option string)
  (CNSTD_SPACE PP_SPACE : string)
  (Detector PPDetector : model_args -> string + DetModel)
  (AngleClassifier : dict -> string + AngleClf)
  a c kw w self w1 :
  init get_space CNSTD_SPACE PP_SPACE Detector PPDetector AngleClassifier
       a c kw w = (inr self, w1) ->
  forall v da kw' w2,
    (forall s, fst (detect self v da kw' w2) <> inl (AttributeError s))
    /\ (arg_use_angle_clf c = false ->
        clf_calls (new_calls w2 (snd (detect self v da kw' w2))) = []).
Proof.
  intros Hinit v da kw' w2.
  destruct (init_sets_angle_clf _ _ _ _ _ _ _ _ _ _ Hinit) as [Huse Hiff].
  split.
  - intros s Herr.
    destruct (detect self v da kw' w2) as [r w'] eqn:Hrun. cbn in Herr.
    subst r. apply detect_attribute_error in Hrun.
    destruct Hrun as [Hon Hnone]. apply Hiff in Hon.
    destruct Hon as [clf Hclf]. congruence.
  - intros Hoff. rewrite Hoff in Huse.
    destruct (detect_log self v da kw' w2) as (batches & -> & Hnil & _).
    rewrite (Hnil Huse).
    now destruct (is_list_or_tuple v || is_single_image v).
Qed.

Lemma built_object_is_consistent_witness :
  exists self w1,
    ex_init ex_known_args ex_clf_args [] w0 = (inr self, w1)
    /\ fst (detect self ex_input default_det_args [] w1)
       <> inl (AttributeError "angle_clf").
Proof.
  destruct (ex_init ex_known_args ex_clf_args [] w0) as [[e | self] w1] eqn:Hrun;
    [vm_compute in Hrun; discriminate |].
  exists self, w1. split; [reflexivity |].
  apply (@built_object_is_consistent ex_get_space "__cnstd__" "__paddleocr__"
           ex_Detector ex_Detector ex_AngleClassifier
           ex_known_args ex_clf_args [] w0 self w1 Hrun).
Defined.

(** X6.  A [detect] call that gets past the type check calls the detector
    exactly once, first, on the sequence as given (or on the one-element
    list of the single image) with the five named arguments as given;
    whatever follows in the log is a classifier call, at most one per
    result returned.  When the detector raises, [detect] raises the same,
    the classifier is not called, and the store is as the detector left
    it; the same holds for the log and the store when rectification is
    off. *)
Theorem detect_calls_detector_once self v a kw w :
  is_list_or_tuple v || is_single_image v = true ->
  exists batches,
    new_calls w (snd (detect self v a kw w))
    = CallDetect (forwarded v) a :: map CallAngleClf batches
    /\ match det_detect (det_model self) (forwarded v) a (objs w) with
       | (inl e, h) =>
           batches = []
           /\ fst (detect self v a kw w) = inl (Raised e)
           /\ objs (snd (detect self v a kw w)) = h
       | (inr outs, h) =>
           length batches <= length outs
           /\ (use_angle_clf self = false ->
               batches = [] /\ objs (snd (detect self v a kw w)) = h)
       end.
Proof.
  intros Hok.
  destruct (detect_log self v a kw w) as (batches & Hnew & Hoff & Hlen).
  rewrite Hok in Hnew. exists batches. split; [exact Hnew |].
  destruct (det_detect (det_model self) (forwarded v) a (objs w))
    as [[e | outs] h] eqn:Hdet.
  - assert (Hrun : detect self v a kw w
             = (inl (Raised e),
                {| objs := h;
                   calls := calls w ++ [CallDetect (forwarded v) a] |})).
    { rewrite detect_run, Hok. cbn zeta. now rewrite Hdet. }
    rewrite Hrun in Hnew |- *. cbn in Hnew |- *.
    rewrite new_calls_mk in Hnew. injection Hnew as Hnew.
    destruct batches; [now repeat split | discriminate].
  - split; [eapply Hlen; reflexivity |].
    intros Huse. split; [now apply Hoff |].
    rewrite detect_run, Hok. cbn zeta. rewrite Hdet, Huse. cbn.
    unfold unwrap. destruct (negb _); [destruct outs |]; reflexivity.
Qed.

Lemma detect_calls_detector_once_witness :
  is_list_or_tuple img_a || is_single_image img_a = true
  /\ new_calls w0 (snd (detect (with_det failing_det (Some flip_clf)) img_a
                          default_det_args [] w0))
     = [CallDetect (PyList [img_a]) default_det_args]
  /\ fst (detect (with_det failing_det (Some flip_clf)) img_a
            default_det_args [] w0)
     = inl (Raised "InvalidInput").
Proof.
  split; [reflexivity |].
  destruct (@detect_calls_detector_once (with_det failing_det (Some flip_clf))
              img_a default_det_args [] w0 eq_refl)
    as (batches & Hnew & Hnil & Hfst & _).
  rewrite Hnil in Hnew. split; [exact Hnew | exact Hfst].
Defined.

(** X7.  When the detector returns an empty sequence: for a single image
    [detect] raises IndexError, for a list or tuple it returns the empty
    sequence.  Either way the classifier is not called, whether
    rectification is on or not, and the store is as the detector left
    it. *)
Theorem detect_empty_result self v a kw w h :
  is_list_or_tuple v || is_single_image v = true ->
  det_detect (det_model self) (forwarded v) a (objs w) = (inr [], h) ->
  detect self v a kw w
  = (if is_list_or_tuple v then inr (Multi []) else inl IndexError,
     {| objs := h; calls := calls w ++ [CallDetect (forwarded v) a] |}).
Proof.
  intros Hok Hdet. rewrite detect_run, Hok. cbn zeta. rewrite Hdet.
  destruct (use_angle_clf self); cbn;
    now destruct (is_list_or_tuple v).
Qed.

Lemma detect_empty_result_witness :
  fst (detect (with_det empty_det (Some flip_clf)) img_a default_det_args [] w0)
  = inl IndexError
  /\ fst (detect (with_det empty_det (Some flip_clf)) (PyList [])
            default_det_args [] w0)
     = inr (Multi []).
Proof.
  split.
  - now rewrite (@detect_empty_result (with_det empty_det (Some flip_clf))
                   img_a default_det_args [] w0 (objs w0) eq_refl eq_refl).
  - now rewrite (@detect_empty_result (with_det empty_det (Some flip_clf))
                   (PyList []) default_det_args [] w0 (objs w0) eq_refl eq_refl).
Defined.

(** ** Classifiers that do not keep to one crop out per crop in *)

(** X8.  With rectification on and box dicts that are distinct objects, a
    [detect] call that returns has, for every image, paired the boxes with
    the crops the classifier returned for that image as far as both last:
    box [i] holds returned crop [i] when there is one and is exactly as
    the detector left it when the classifier returned fewer crops;
    returned crops beyond the last box are dropped; dicts of no result are
    untouched. *)
Theorem detect_pairs_crops_as_far_as_they_go self clf v a kw w r w' outs h :
  use_angle_clf self = true ->
  angle_clf self = Some clf ->
  det_detect (det_model self) (forwarded v) a (objs w) = (inr outs, h) ->
  NoDup (all_texts outs) ->
  detect self v a kw w = (inr r, w') ->
  Forall (fun o =>
       exists res meta,
         clf_call clf (crops_of (cell h) o) = inr (res, meta)
         /\ forall i l,
              nth_error (detected_texts o) i = Some l ->
              cell (objs w') l
              = match nth_error res i with
                | Some c => {| box := box (cell h l); score := score (cell h l);
                               cropped_img := c |}
                | None => cell h l
                end)
     outs
  /\ forall l, ~ In l (all_texts outs) -> cell (objs w') l = cell h l.
Proof.
  intros Huse Hclf Hdet Hnd Hrun. apply detect_returns in Hrun.
  destruct Hrun as (outs' & h' & Hdet' & Hrect & _).
  rewrite Hdet in Hdet'. injection Hdet' as <- <-.
  rewrite Huse in Hrect.
  destruct (rectify_outs_distinct _ _ _ Hclf Hnd Hrect) as (_ & Hall).
  destruct (rectify_outs_frame _ _ _ Hrect) as (_ & _ & Hout & _).
  split; [| exact Hout].
  cbn in Hall. rewrite Forall_forall in Hall |- *.
  intros o Ho. destruct (Hall o Ho) as (res & meta & Hcall & Hwb).
  exists res, meta. split; [assumption |].
  intros i l Hl. rewrite (Hwb i l Hl). reflexivity.
Qed.

Lemma detect_pairs_crops_as_far_as_they_go_witness :
  exists r w',
    detect (with_det two_image_det (Some short_clf)) ex_input
           default_det_args [] w0 = (inr r, w')
    /\ cell (objs w') 0
       = {| box := box_a; score := 8 # 10; cropped_img := flip180 (patch 1) |}
    /\ cell (objs w') 1
       = {| box := box_b; score := 1 # 2; cropped_img := patch 2 |}.
Proof.
  destruct (detect (with_det two_image_det (Some short_clf)) ex_input
              default_det_args [] w0) as [[e | r] w'] eqn:Hrun;
    [vm_compute in Hrun; discriminate |].
  exists r, w'. split; [reflexivity |].
  destruct (@detect_pairs_crops_as_far_as_they_go
              (with_det two_image_det (Some short_clf)) short_clf ex_input
              default_det_args [] w0 r w'
              two_image_outs
              (snd (det_detect two_image_det ex_input default_det_args
                      (objs w0)))
              eq_refl eq_refl eq_refl)
    as (Hall & _).
  - vm_compute. repeat constructor; simpl; intuition discriminate.
  - exact Hrun.
  - apply Forall_inv in Hall. destruct Hall as (res & meta & Hcall & Hwb).
    injection Hcall as <- _.
    split; [exact (Hwb 0 0 eq_refl) | exact (Hwb 1 1 eq_refl)].
Defined.

Lemma rectify_outs_total self clf outs : forall w,
  angle_clf self = Some clf ->
  (forall crops, exists res, clf_call clf crops = inr res) ->
  exists w', rectify_outs self outs w = (inr tt, w').
Proof.
  induction outs as [| o outs IH]; intros w Hclf Htot; simpl.
  - now exists w.
  - unfold bind. rewrite (rectify_out_run _ o w Hclf). cbn zeta.
    destruct (Htot (crops_of (cell (objs w)) o)) as [res ->].
    now apply IH.
Qed.

(** X9.  [detect] returns whenever its collaborators do: the argument
    passes the type check, the detector returns (at least one result when
    a single image was given), and, with rectification on, there is a
    classifier that returns on every batch.  How many crops the classifier
    returns plays no part. *)
Theorem detect_returns_when_collaborators_do self v a kw w outs h :
  is_list_or_tuple v || is_single_image v = true ->
  det_detect (det_model self) (forwarded v) a (objs w) = (inr outs, h) ->
  (is_list_or_tuple v = false -> outs <> []) ->
  (use_angle_clf self = true ->
   exists clf, angle_clf self = Some clf
               /\ forall crops, exists res, clf_call clf crops = inr res) ->
  exists w',
    detect self v a kw w
    = (inr (if is_list_or_tuple v then Multi outs
            else Single (hd {| rotated_angle := 0%Q; detected_texts := [] |}
                            outs)),
       w').
Proof.
  intros Hok Hdet Hne Hclf. rewrite detect_run, Hok. cbn zeta. rewrite Hdet.
  assert (Hun : forall w2,
            unwrap (negb (is_list_or_tuple v)) outs w2
            = (inr (if is_list_or_tuple v then Multi outs
                    else Single (hd {| rotated_angle := 0%Q;
                                       detected_texts := [] |} outs)), w2)).
  { intros w2. unfold unwrap. destruct (is_list_or_tuple v); cbn.
    - reflexivity.
    - destruct outs; [now destruct Hne | reflexivity]. }
  destruct (use_angle_clf self).
  - destruct (Hclf eq_refl) as (clf & Hsome & Htot).
    destruct (rectify_outs_total self outs
                {| objs := h; calls := calls w ++ [CallDetect (forwarded v) a] |}
                Hsome Htot) as [w2 ->].
    exists w2. apply Hun.
  - cbn. eexists. apply Hun.
Qed.

Lemma detect_returns_when_collaborators_do_witness :
  is_list_or_tuple img_a || is_single_image img_a = true
  /\ (forall crops, exists res, clf_call long_clf crops = inr res)
  /\ exists w',
       detect (with_det two_image_det (Some long_clf)) img_a
              default_det_args [] w0
       = (inr (Single {| rotated_angle := 0%Q; detected_texts := [0; 1] |}), w').
Proof.
  assert (Htot : forall crops, exists res, clf_call long_clf crops = inr res)
    by (intros crops; eexists; reflexivity).
  split; [reflexivity |]. split; [exact Htot |].
  apply (@detect_returns_when_collaborators_do
           (with_det two_image_det (Some long_clf)) img_a default_det_args []
           w0 two_image_outs
           (snd (det_detect two_image_det (PyList [img_a]) default_det_args
                   (objs w0)))).
  - reflexivity.
  - reflexivity.
  - discriminate.
  - intros _. exists long_clf. split; [reflexivity | exact Htot].
Defined.

(** ** A classifier that changes nothing *)

Lemma set_crop_same i : set_crop i (cropped_img i) = i.
Proof. now destruct i. Qed.

Lemma write_cells_unchanged pairs : forall f,
  (forall l c, In (l, c) pairs -> c = cropped_img (f l)) ->
  forall l, write_cells pairs f l = f l.
Proof.
  induction pairs as [| [l0 c0] rest IH]; intros f Hsame l; simpl.
  - reflexivity.
  - assert (Hupd : forall l', upd f l0 (set_crop (f l0) c0) l' = f l').
    { intros l'. unfold upd. destruct (Nat.eqb_spec l' l0) as [-> | _].
      - rewrite (Hsame l0 c0) by now left. apply set_crop_same.
      - reflexivity. }
    rewrite IH; [apply Hupd |].
    intros l' c' Hin. rewrite Hupd. apply Hsame. now right.
Qed.

Lemma in_combine_map (A B : Type) (g : A -> B) (xs : list A) x y :
  In (x, y) (combine xs (map g xs)) -> y = g x.
Proof.
  induction xs as [| x0 xs IH]; simpl; [contradiction |].
  intros [[= -> ->] | Hin]; [reflexivity | now apply IH].
Qed.

Lemma rectify_outs_identity self clf outs : forall w r w',
  angle_clf self = Some clf ->
  (forall crops res meta, clf_call clf crops = inr (res, meta) -> res = crops) ->
  rectify_outs self outs w = (r, w') ->
  forall l, cell (objs w') l = cell (objs w) l.
Proof.
  induction outs as [| o outs IH]; intros w r w' Hclf Hid Hrun l;
    simpl in Hrun.
  - now injection Hrun as _ <-.
  - unfold bind in Hrun. rewrite (rectify_out_run _ o w Hclf) in Hrun.
    cbn zeta in Hrun.
    destruct (clf_call clf (crops_of (cell (objs w)) o)) as [e | [res meta]]
      eqn:Hcall.
    + now injection Hrun as _ <-.
    + rewrite (IH _ _ _ Hclf Hid Hrun l). cbn.
      apply Hid in Hcall. subst res. cbn.
      apply write_cells_unchanged. intros l' c' Hin.
      unfold crops_of in Hin. now apply in_combine_map in Hin.
Qed.

(** X10.  When the classifier hands every batch back as it got it,
    [detect] leaves every box dict exactly as the detector left it, also
    when dicts are shared between boxes or images, and also when the call
    ends in an exception. *)
Theorem detect_identity_classifier self clf v a kw w outs h :
  is_list_or_tuple v || is_single_image v = true ->
  angle_clf self = Some clf ->
  (forall crops res meta, clf_call clf crops = inr (res, meta) -> res = crops) ->
  det_detect (det_model self) (forwarded v) a (objs w) = (inr outs, h) ->
  forall l, cell (objs (snd (detect self v a kw w))) l = cell h l.
Proof.
  intros Hok Hclf Hid Hdet l. rewrite detect_run, Hok.
  cbn zeta. rewrite Hdet.
  assert (Hun : forall w2,
            objs (snd (unwrap (negb (is_list_or_tuple v)) outs w2)) = objs w2).
  { intros w2. unfold unwrap.
    destruct (negb _); [destruct outs |]; reflexivity. }
  destruct (use_angle_clf self).
  - destruct (rectify_outs self outs _) as [[e | []] w2] eqn:Hrect;
      pose proof (rectify_outs_identity _ _ _ Hclf Hid Hrect l) as Hl;
      cbn in Hl |- *; [exact Hl | now rewrite Hun].
  - cbn. now rewrite Hun.
Qed.

Lemma detect_identity_classifier_witness :
  is_list_or_tuple ex_input || is_single_image ex_input = true
  /\ (forall crops res meta,
        clf_call id_clf crops = inr (res, meta) -> res = crops)
  /\ cell (objs (snd (detect (with_det alias_det (Some id_clf)) ex_input
                         default_det_args [] w0))) 1
     = {| box := box_b; score := 1 # 2; cropped_img := patch 2 |}.
Proof.
  assert (Hid : forall crops res meta,
             clf_call id_clf crops = inr (res, meta) -> res = crops)
    by (intros crops res meta [= <- _]; reflexivity).
  split; [reflexivity |]. split; [exact Hid |].
  now rewrite (@detect_identity_classifier (with_det alias_det (Some id_clf))
                 id_clf ex_input default_det_args [] w0 _ _
                 eq_refl eq_refl Hid eq_refl 1).
Defined.

(** ** A classifier that raises in the middle *)

Lemma all_texts_cons o outs :
  all_texts (o :: outs) = detected_texts o ++ all_texts outs.
Proof. reflexivity. Qed.

(** The loop on distinct dicts, stopped by the classifier at result [o]:
    the results before it are rewritten, nothing else is. *)
Lemma rectify_outs_stops self clf o post e pre : forall w,
  angle_clf self = Some clf ->
  NoDup (all_texts (pre ++ o :: post)) ->
  Forall (fun o' =>
            exists res, clf_call clf (crops_of (cell (objs w)) o') = inr res)
         pre ->
  clf_call clf (crops_of (cell (objs w)) o) = inl e ->
  exists w',
    rectify_outs self (pre ++ o :: post) w = (inl (Raised e), w')
    /\ calls w'
       = calls w
         ++ map CallAngleClf (map (crops_of (cell (objs w))) (pre ++ [o]))
    /\ Forall (fun o' =>
                 exists res meta,
                   clf_call clf (crops_of (cell (objs w)) o') = inr (res, meta)
                   /\ written_back (cell (objs w)) (cell (objs w')) o' res)
              pre
    /\ forall l, ~ In l (all_texts pre) -> cell (objs w') l = cell (objs w) l.
Proof.
  induction pre as [| o1 pre IH]; intros w Hclf Hnd Hpre Hfail.
  - cbn [app rectify_outs]. unfold bind.
    rewrite (rectify_out_run _ o w Hclf). cbn zeta. rewrite Hfail.
    eexists. split; [reflexivity |]. cbn.
    split; [reflexivity |]. split; [constructor | reflexivity].
  - cbn [app rectify_outs]. unfold bind.
    rewrite (rectify_out_run _ o1 w Hclf). cbn zeta.
    inversion Hpre as [| ? ? [[res1 meta1] Hcall1] Hpre']; subst.
    rewrite Hcall1. cbn [fst].
    cbn [app] in Hnd. rewrite all_texts_cons in Hnd.
    assert (Hnd1 : NoDup (detected_texts o1))
      by (eapply NoDup_app_remove_r; eassumption).
    assert (Hnd' : NoDup (all_texts (pre ++ o :: post)))
      by (eapply NoDup_app_remove_l; eassumption).
    set (h1 := write_cells (combine (detected_texts o1) res1) (cell (objs w))).
    assert (Hag : forall l, In l (all_texts (pre ++ o :: post)) ->
                            h1 l = cell (objs w) l).
    { intros l Hin. apply write_cells_outside. intros Hin'.
      apply map_fst_combine_incl in Hin'.
      eapply NoDup_app_disjoint; eassumption. }
    assert (Hcr : forall o', In o' (pre ++ o :: post) ->
                             crops_of h1 o' = crops_of (cell (objs w)) o').
    { intros o' Ho'. apply crops_of_agree. intros l Hl. apply Hag.
      eapply in_all_texts; eassumption. }
    match goal with
    | |- context [rectify_outs self _ ?w1] =>
        destruct (IH w1 Hclf Hnd') as (w' & Hrun & Hcalls & Hwb & Hout)
    end.
    + cbn. rewrite Forall_forall in Hpre' |- *. intros o' Ho'.
      rewrite Hcr by (apply in_or_app; now left). now apply Hpre'.
    + cbn. rewrite Hcr by (apply in_or_app; right; now left). exact Hfail.
    + cbn in Hcalls, Hwb, Hout. fold h1 in Hcalls, Hwb, Hout.
      exists w'. split; [exact Hrun |]. split; [| split].
      * rewrite Hcalls, <- app_assoc. cbn. do 3 f_equal.
        apply map_ext_in. intros o' Ho'. apply Hcr.
        apply in_app_or in Ho'. apply in_or_app.
        destruct Ho' as [Ho' | [<- | []]]; [now left | right; now left].
      * constructor.
        -- exists res1, meta1. split; [assumption |].
           intros i l Hl. rewrite Hout.
           ++ now apply write_cells_written_back.
           ++ intros Hin. eapply NoDup_app_disjoint; try eassumption.
              ** eapply nth_error_In; eassumption.
              ** rewrite all_texts_app. apply in_or_app. now left.
        -- rewrite Forall_forall in Hwb |- *. intros o' Ho'.
           destruct (Hwb o' Ho') as (res & meta & Hcall & Hw).
           rewrite Hcr in Hcall by (apply in_or_app; now left).
           exists res, meta. split; [assumption |].
           intros i l Hl. rewrite (Hw i l Hl).
           rewrite Hag; [reflexivity |].
           rewrite all_texts_app. apply in_or_app. left.
           eapply in_all_texts; [eassumption |].
           eapply nth_error_In; eassumption.
      * intros l Hnin. rewrite all_texts_cons in Hnin.
        rewrite Hout by (intros Hin; apply Hnin, in_or_app; now right).
        apply write_cells_outside. intros Hin. apply Hnin, in_or_app. left.
        eapply map_fst_combine_incl; eassumption.
Qed.

(** X11.  With rectification on and box dicts that are distinct objects:
    when the classifier returns for the first results and raises for the
    next one, [detect] raises that exception and nothing is undone.  The
    classifier has been called once for each result up to and including
    the failing one; the boxes of the earlier results already carry the
    returned crops; every other dict is as the detector left it. *)
Theorem detect_classifier_failure_is_not_undone
  self clf v a kw w pre o post h e :
  is_list_or_tuple v || is_single_image v = true ->
  use_angle_clf self = true ->
  angle_clf self = Some clf ->
  det_detect (det_model self) (forwarded v) a (objs w)
  = (inr (pre ++ o :: post), h) ->
  NoDup (all_texts (pre ++ o :: post)) ->
  Forall (fun o' => exists res, clf_call clf (crops_of (cell h) o') = inr res)
         pre ->
  clf_call clf (crops_of (cell h) o) = inl e ->
  exists w',
    detect self v a kw w = (inl (Raised e), w')
    /\ clf_calls (new_calls w w') = map (crops_of (cell h)) (pre ++ [o])
    /\ Forall (fun o' =>
                 exists res meta,
                   clf_call clf (crops_of (cell h) o') = inr (res, meta)
                   /\ written_back (cell h) (cell (objs w')) o' res)
              pre
    /\ forall l, ~ In l (all_texts pre) -> cell (objs w') l = cell h l.
Proof.
  intros Hok Huse Hclf Hdet Hnd Hpre Hfail.
  rewrite detect_run, Hok. cbn zeta. rewrite Hdet, Huse.
  destruct (@rectify_outs_stops self clf o post e pre
              {| objs := h; calls := calls w ++ [CallDetect (forwarded v) a] |}
              Hclf Hnd Hpre Hfail) as (w' & Hrun & Hcalls & Hwb & Hout).
  rewrite Hrun. exists w'. split; [reflexivity |].
  split; [| split; assumption].
  cbn in Hcalls. rewrite <- app_assoc in Hcalls.
  rewrite (@new_calls_app w w' _ Hcalls). cbn.
  generalize (map (crops_of (cell h)) (pre ++ [o])).
  intros bs. induction bs as [| b bs IHb]; cbn; [reflexivity | now f_equal].
Qed.

Lemma detect_classifier_failure_is_not_undone_witness :
  exists w',
    detect (with_det two_image_det (Some picky_clf)) ex_input
           default_det_args [] w0
    = (inl (Raised "BatchTooSmall"), w')
    /\ clf_calls (new_calls w0 w') = [[patch 1; patch 2]; [patch 3]]
    /\ cell (objs w') 2
       = {| box := box_c; score := 7 # 10; cropped_img := patch 3 |}.
Proof.
  destruct (@detect_classifier_failure_is_not_undone
              (with_det two_image_det (Some picky_clf)) picky_clf ex_input
              default_det_args [] w0
              [ {| rotated_angle := 0%Q; detected_texts := [0; 1] |} ]
              {| rotated_angle := 0%Q; detected_texts := [2] |} []
              (snd (det_detect two_image_det ex_input default_det_args
                      (objs w0)))
              "BatchTooSmall" eq_refl eq_refl eq_refl eq_refl)
    as (w' & Hrun & Hcalls & _ & Hout).
  - vm_compute. repeat constructor; simpl; intuition discriminate.
  - constructor; [| constructor]. eexists. reflexivity.
  - reflexivity.
  - exists w'. split; [exact Hrun |]. split; [exact Hcalls |].
    rewrite Hout; [reflexivity |].
    cbn. intros [H | [H | []]]; discriminate.
Defined.

(** ** A result dict that is handed out twice *)

Lemma crops_of_written_back f g o res :
  written_back f g o res ->
  length res = length (detected_texts o) ->
  crops_of g o = res.
Proof.
  intros Hwb Hlen. apply nth_error_ext. intros i.
  unfold crops_of. rewrite nth_error_map.
  destruct (nth_error (detected_texts o) i) as [l |] eqn:Hl; cbn.
  - rewrite (Hwb i l Hl).
    destruct (nth_error res i) as [c |] eqn:Hc; [reflexivity |].
    apply nth_error_None in Hc.
    assert (i < length (detected_texts o))
      by (apply nth_error_Some; congruence).
    lia.
  - symmetry. apply nth_error_None. apply nth_error_None in Hl. lia.
Qed.

(** X12.  When the detector hands out the same result twice in a row,
    its box dicts are rectified twice: the second classifier call gets
    the crops the first one returned, and the boxes end up with what the
    second call returned (for a classifier that returns one crop per crop
    it gets). *)
Theorem detect_rectifies_shared_result_twice self clf v a kw w r w' o h :
  use_angle_clf self = true ->
  angle_clf self = Some clf ->
  (forall crops res meta,
      clf_call clf crops = inr (res, meta) -> length res = length crops) ->
  det_detect (det_model self) (forwarded v) a (objs w) = (inr [o; o], h) ->
  NoDup (detected_texts o) ->
  detect self v a kw w = (inr r, w') ->
  exists res1 meta1 res2 meta2,
    clf_call clf (crops_of (cell h) o) = inr (res1, meta1)
    /\ clf_call clf res1 = inr (res2, meta2)
    /\ clf_calls (new_calls w w') = [crops_of (cell h) o; res1]
    /\ forall i l,
         nth_error (detected_texts o) i = Some l ->
         exists c,
           nth_error res2 i = Some c
           /\ cell (objs w') l
              = {| box := box (cell h l); score := score (cell h l);
                   cropped_img := c |}.
Proof.
  intros Huse Hclf Hcontract Hdet Hnd Hrun. apply detect_returns in Hrun.
  destruct Hrun as (outs' & h' & Hdet' & Hrect & _).
  rewrite Hdet in Hdet'. injection Hdet' as <- <-.
  rewrite Huse in Hrect. cbn [rectify_outs] in Hrect. unfold bind in Hrect.
  rewrite (rectify_out_run _ o _ Hclf) in Hrect. cbn zeta in Hrect.
  cbn [objs cell calls] in Hrect.
  destruct (clf_call clf (crops_of (cell h) o)) as [e | [res1 meta1]] eqn:Hc1;
    [discriminate |].
  cbn [fst] in Hrect.
  pose proof (@write_cells_written_back (cell h) o res1 Hnd) as Hwb1.
  assert (Hlen1 : length res1 = length (detected_texts o)).
  { rewrite (Hcontract _ _ _ Hc1). unfold crops_of. apply length_map. }
  rewrite (rectify_out_run _ o _ Hclf) in Hrect. cbn zeta in Hrect.
  cbn [objs cell calls] in Hrect.
  rewrite (crops_of_written_back Hwb1 Hlen1) in Hrect.
  destruct (clf_call clf res1) as [e | [res2 meta2]] eqn:Hc2; [discriminate |].
  cbn [fst] in Hrect. cbn in Hrect. injection Hrect as <-.
  assert (Hlen2 : length res2 = length (detected_texts o)).
  { rewrite (Hcontract _ _ _ Hc2). exact Hlen1. }
  exists res1, meta1, res2, meta2.
  split; [reflexivity |]. split; [exact Hc2 |]. split.
  - rewrite <- !app_assoc, new_calls_mk. reflexivity.
  - intros i l Hl. cbn.
    pose proof (@write_cells_written_back
                  (write_cells (combine (detected_texts o) res1) (cell h))
                  o res2 Hnd i l Hl) as H2.
    specialize (Hwb1 i l Hl).
    assert (Hi : i < length (detected_texts o))
      by (apply nth_error_Some; congruence).
    destruct (nth_error res2 i) as [c2 |] eqn:E2;
      [| apply nth_error_None in E2; lia].
    destruct (nth_error res1 i) as [c1 |] eqn:E1;
      [| apply nth_error_None in E1; lia].
    exists c2. split; [reflexivity |].
    rewrite H2, Hwb1. reflexivity.
Qed.

Lemma detect_rectifies_shared_result_twice_witness :
  exists r w',
    detect (with_det alias_det (Some flip_clf)) ex_input default_det_args [] w0
    = (inr r, w')
    /\ clf_calls (new_calls w0 w')
       = [[patch 1; patch 2]; [flip180 (patch 1); flip180 (patch 2)]]
    /\ cropped_img (cell (objs w') 0) = patch 1.
Proof.
  destruct (detect (with_det alias_det (Some flip_clf)) ex_input
              default_det_args [] w0) as [[e | r] w'] eqn:Hrun;
    [vm_compute in Hrun; discriminate |].
  exists r, w'. split; [reflexivity |].
  destruct (@detect_rectifies_shared_result_twice
              (with_det alias_det (Some flip_clf)) flip_clf ex_input
              default_det_args [] w0 r w'
              {| rotated_angle := 0%Q; detected_texts := [0; 1] |}
              (snd (det_detect alias_det ex_input default_det_args (objs w0)))
              eq_refl eq_refl)
    as (res1 & meta1 & res2 & meta2 & Hc1 & Hc2 & Hcalls & Hcells).
  - intros crops res meta [= <- _]. apply length_map.
  - reflexivity.
  - repeat constructor; simpl; intuition discriminate.
  - exact Hrun.
  - injection Hc1 as <- _. injection Hc2 as <- _.
    split; [exact Hcalls |].
    destruct (Hcells 0 0 eq_refl) as (c & Hc & ->).
    injection Hc as <-. reflexivity.
Defined.

(** ** The pipeline as detector: size and score of the emitted regions *)

Lemma detect_on_detector self v a kw w r w' :
  detect self v a kw w = (inr r, w') ->
  exists outs h,
    det_detect (det_model self) (forwarded v) a (objs w) = (inr outs, h)
    /\ r = (if is_list_or_tuple v then Multi outs
            else Single (hd {| rotated_angle := 0%Q; detected_texts := [] |}
                            outs))
    /\ results r = (if is_list_or_tuple v then outs else firstn 1 outs)
    /\ same_boxes (cell h) (cell (objs w'))
    /\ (use_angle_clf self = false -> objs w' = h).
Proof.
  intros Hrun. apply detect_returns in Hrun.
  destruct Hrun as (outs & h & Hdet & Hrect & Hun).
  apply unwrap_results in Hun. destruct Hun as (Hr & Hres & _).
  exists outs, h. split; [assumption |].
  split; [rewrite Hr; now destruct (is_list_or_tuple v) |].
  split; [rewrite Hres; now destruct (is_list_or_tuple v) |].
  destruct (use_angle_clf self).
  - destruct (rectify_outs_frame _ _ _ Hrect) as (_ & Hb & _).
    split; [exact Hb | discriminate].
  - injection Hrect as <-. cbn. split; [apply same_boxes_refl | reflexivity].
Qed.


















(** ** Single image against one-element list, and list inputs *)

(** C1.  For a bare path, PIL image or ndarray [img], [detect(img)] behaves
    as [detect([img])[0]]: it raises what that raises, returns the one dict
    that is the first element of that list, and leaves the same store and
    call log.  For a list or tuple, what [detect] returns is the sequence
    the detector returned, result for result in the same order.  With the
    detection pipeline as detector, on a backend that yields for each
    image of a batch a raw output related to it by [R], that sequence has
    one result per input image, in input order: result [k] carries the
    rotation angle of image [k], and its boxes and scores, entry by entry,
    are those of the regions decoded from a raw output the backend gave
    for image [k], remapped with the scale of image [k]; the crops too
    when rectification is off. *)
Theorem detect_single_list_symmetry :
  (forall self img a kw w,
      is_single_image img = true ->
      detect self img a kw w
      = (let (x, w1) := detect self (PyList [img]) a kw w in
         (match x with inl e => inl e | inr y => item0 y end, w1))
      /\ forall r1 w1, detect self img a kw w = (inr r1, w1) ->
                       exists o, r1 = Single o)
  /\ (forall self v a kw w r w',
        is_list_or_tuple v = true ->
        detect self v a kw w = (inr r, w') ->
        exists outs h,
          det_detect (det_model self) v a (objs w) = (inr outs, h)
          /\ r = Multi outs)
  /\ (forall bk m R self v a kw w r w',
        det_model self = pipeline bk m ->
        backend_meets bk R ->
        is_list_or_tuple v = true ->
        detect self v a kw w = (inr r, w') ->
        exists outs,
          r = Multi outs
          /\ length outs = length (elements v)
          /\ forall k img,
               nth_error (elements v) k = Some img ->
               exists im raw o,
                 load bk img = Some im
                 /\ R (resample bk (fst (prepare bk m im)) (resized_shape a)
                                (preserve_aspect_ratio a)) raw
                 /\ nth_error outs k = Some o
                 /\ rotated_angle o = snd (prepare bk m im)
                 /\ map (fun l => (box (cell (objs w') l),
                                   score (cell (objs w') l)))
                        (detected_texts o)
                    = map (fun i => (box i, score i))
                          (emitted bk m a (fst (prepare bk m im)) raw)
                 /\ (use_angle_clf self = false ->
                     map (cell (objs w')) (detected_texts o)
                     = emitted bk m a (fst (prepare bk m im)) raw)).
Proof.
  split; [| split].
  - intros self img a kw w Himg.
    assert (Hfwd : forwarded img = PyList [img])
      by (destruct img; try discriminate; reflexivity).
    assert (Himg' : is_list_or_tuple img = false)
      by (destruct img; try discriminate; reflexivity).
    split.
    + rewrite !detect_run. rewrite Himg, Himg', Hfwd. cbn.
      destruct (det_detect (det_model self) (PyList [img]) a (objs w))
        as [[e | outs] h]; [reflexivity |].
      match goal with
      | |- context [match ?X with (_, _) => _ end] =>
          destruct X as [[e | []] w2]; [reflexivity |]
      end.
      destruct outs; reflexivity.
    + intros r1 w1 H1. apply detect_on_detector in H1.
      destruct H1 as (outs & h & _ & -> & _).
      rewrite Himg'. eexists. reflexivity.
  - intros self v a kw w r w' Hseq Hrun.
    apply detect_on_detector in Hrun.
    destruct Hrun as (outs & h & Hdet & -> & _).
    assert (Hv : forwarded v = v) by (unfold forwarded; now rewrite Hseq).
    rewrite Hv in Hdet. rewrite Hseq. now exists outs, h.
  - intros bk m R self v a kw w r w' Hdm Hbk Hseq Hrun.
    apply detect_on_detector in Hrun.
    destruct Hrun as (outs & h & Hdet & -> & _ & Hsame & Hoff).
    assert (Hv : forwarded v = v) by (unfold forwarded; now rewrite Hseq).
    rewrite Hv, Hdm in Hdet. rewrite Hseq.
    destruct (pipeline_aligned _ _ _ _ Hbk Hdet) as (Hlen & _ & Hnth).
    exists outs. split; [reflexivity |]. split; [exact Hlen |].
    intros k img Hk.
    destruct (Hnth k img Hk) as (im & raw & o & Hload & HR & Ho & Hang & Hmap).
    exists im, raw, o.
    split; [exact Hload |]. split; [exact HR |]. split; [exact Ho |].
    split; [exact Hang |]. split.
    + rewrite <- Hmap, map_map. apply map_ext. intros l.
      destruct (Hsame l) as [-> ->]. reflexivity.
    + intros Huse. now rewrite (Hoff Huse).
Qed.

Lemma ex_backend_meets :
  backend_meets ex_backend (fun _ raw => raw = [[9 # 10]]%Q).
Proof.
  intros batch raws [= <-].
  induction batch as [| b batch IH]; simpl; constructor; auto.
Qed.

Lemma detect_single_list_symmetry_witness :
  detect ex_self img_a default_det_args [] w0
  = (let (x, w1) := detect ex_self (PyList [img_a]) default_det_args [] w0 in
     (match x with inl e => inl e | inr y => item0 y end, w1))
  /\ fst (detect ex_self ex_input default_det_args [] w0) = inr (Multi ex_outs)
  /\ exists outs w',
       detect ex_pipe_self ex_two_pictures ex_half_args [] w0
       = (inr (Multi outs), w')
       /\ length outs = 2
       /\ exists o,
            nth_error outs 1 = Some o
            /\ map (fun l => (box (cell (objs w') l), score (cell (objs w') l)))
                   (detected_texts o)
               = map (fun i => (box i, score i))
                     (emitted ex_backend ex_pipe_args ex_half_args
                              (picture 64 64) [[9 # 10]]%Q).
Proof.
  destruct detect_single_list_symmetry as (Hsym & Hseq & Hpipe).
  split; [apply (Hsym ex_self img_a default_det_args [] w0 eq_refl) |].
  split.
  - destruct (detect ex_self ex_input default_det_args [] w0)
      as [[e | r] w'] eqn:Hrun; [vm_compute in Hrun; discriminate |].
    destruct (Hseq ex_self ex_input default_det_args [] w0 r w' eq_refl Hrun)
      as (outs & h & Hdet & ->).
    vm_compute in Hdet. now injection Hdet as <- _.
  - destruct (detect ex_pipe_self ex_two_pictures ex_half_args [] w0)
      as [[e | r] w'] eqn:Hrun; [vm_compute in Hrun; discriminate |].
    destruct (Hpipe ex_backend ex_pipe_args _ ex_pipe_self ex_two_pictures
                ex_half_args [] w0 r w' eq_refl ex_backend_meets eq_refl Hrun)
      as (outs & -> & Hlen & Hnth).
    exists outs, w'. split; [reflexivity |]. split; [exact Hlen |].
    destruct (Hnth 1 (PyArray (picture 64 64)) eq_refl)
      as (im & raw & o & Hload & -> & Ho & _ & Hmap & _).
    vm_compute in Hload. injection Hload as <-.
    exists o. split; [exact Ho | exact Hmap].
Defined.

(** ** Tuples *)

(** C10.  A tuple takes the branch a list takes.  A call on a tuple or a
    list that returns has called the detector once, on that very
    sequence, and returns the whole sequence of per-image results the
    detector returned, never a single one.  A single dict, the first of
    the detector's results, comes back for a bare str, Path, PIL image or
    ndarray, and for nothing else.  Where the detector makes no
    difference between a tuple and the list of the same elements, neither
    does [detect]: same outcome, same store, same classifier calls. *)
Theorem detect_tuple_like_list self a kw w :
  (forall v r w',
      is_list_or_tuple v = true ->
      detect self v a kw w = (inr r, w') ->
      exists outs h,
        det_detect (det_model self) v a (objs w) = (inr outs, h)
        /\ r = Multi outs
        /\ detect_calls (new_calls w w') = [(v, a)])
  /\ (forall v r w',
        is_single_image v = true ->
        detect self v a kw w = (inr r, w') ->
        exists o outs h,
          det_detect (det_model self) (PyList [v]) a (objs w)
          = (inr (o :: outs), h)
          /\ r = Single o)
  /\ (forall v o w',
        detect self v a kw w = (inr (Single o), w') ->
        is_single_image v = true)
  /\ (forall xs,
        det_detect (det_model self) (PyTuple xs) a (objs w)
        = det_detect (det_model self) (PyList xs) a (objs w) ->
        fst (detect self (PyTuple xs) a kw w)
        = fst (detect self (PyList xs) a kw w)
        /\ objs (snd (detect self (PyTuple xs) a kw w))
           = objs (snd (detect self (PyList xs) a kw w))
        /\ exists es,
             calls (snd (detect self (PyTuple xs) a kw w))
             = calls w ++ CallDetect (PyTuple xs) a :: es
             /\ calls (snd (detect self (PyList xs) a kw w))
                = calls w ++ CallDetect (PyList xs) a :: es).
Proof.
  split; [| split; [| split]].
  - intros v r w' Hseq Hrun.
    assert (Hv : forwarded v = v) by (unfold forwarded; now rewrite Hseq).
    destruct (detect_log self v a kw w) as (batches & Hnew & _).
    rewrite Hrun, Hseq, Hv in Hnew. cbn [snd orb] in Hnew.
    apply detect_on_detector in Hrun.
    destruct Hrun as (outs & h & Hdet & -> & _).
    rewrite Hv in Hdet. rewrite Hseq.
    exists outs, h. split; [exact Hdet |]. split; [reflexivity |].
    rewrite Hnew. cbn. f_equal.
    clear. induction batches as [| b bs IH]; [reflexivity | exact IH].
  - intros v r w' Himg Hrun.
    assert (Hfwd : forwarded v = PyList [v])
      by (destruct v; try discriminate; reflexivity).
    assert (Hseq : is_list_or_tuple v = false)
      by (destruct v; try discriminate; reflexivity).
    apply detect_returns in Hrun.
    destruct Hrun as (outs & h & Hdet & _ & Hun).
    rewrite Hfwd in Hdet. rewrite Hseq in Hun. cbn in Hun.
    destruct outs as [| o outs]; [discriminate |].
    injection Hun as <-. now exists o, outs, h.
  - intros v o w' Hrun.
    destruct (is_single_image v) eqn:Himg; [reflexivity |].
    destruct (is_list_or_tuple v) eqn:Hseq.
    + apply detect_on_detector in Hrun.
      destruct Hrun as (outs & h & _ & Hr & _).
      rewrite Hseq in Hr. discriminate.
    + rewrite detect_run, Hseq, Himg in Hrun. discriminate.
  - intros xs Hsame. rewrite !detect_run. cbn. rewrite Hsame.
    destruct (det_detect (det_model self) (PyList xs) a (objs w))
      as [[e | outs] h]; cbn.
    + repeat split. now exists [].
    + destruct (use_angle_clf self).
      * destruct (rectify_outs_log self outs h
                    (calls w ++ [CallDetect (PyTuple xs) a])
                    (calls w ++ [CallDetect (PyList xs) a]))
          as (r & h' & es & -> & ->).
        destruct r as [e | []]; cbn; repeat split;
          exists es; now rewrite <- !app_assoc.
      * cbn. repeat split. now exists [].
Qed.

Lemma detect_tuple_like_list_witness :
  det_detect (det_model ex_self) (PyTuple [img_a; img_b]) default_det_args
             (objs w0)
  = det_detect (det_model ex_self) (PyList [img_a; img_b]) default_det_args
               (objs w0)
  /\ fst (detect ex_self (PyTuple [img_a; img_b]) default_det_args [] w0)
     = fst (detect ex_self (PyList [img_a; img_b]) default_det_args [] w0)
  /\ fst (detect ex_self (PyTuple [img_a; img_b]) default_det_args [] w0)
     = inr (Multi ex_outs)
  /\ exists outs,
       fst (detect ex_self img_a default_det_args [] w0)
       = inr (Single {| rotated_angle := 0%Q; detected_texts := [0; 1] |})
       /\ fst (det_detect (det_model ex_self) (PyList [img_a])
                 default_det_args (objs w0))
          = inr ({| rotated_angle := 0%Q; detected_texts := [0; 1] |} :: outs).
Proof.
  split; [reflexivity |].
  destruct (@detect_tuple_like_list ex_self default_det_args [] w0)
    as (Hmulti & Hsingle & _ & Hsame).
  split; [apply (Hsame [img_a; img_b] eq_refl) |].
  split.
  - destruct (detect ex_self (PyTuple [img_a; img_b]) default_det_args [] w0)
      as [[e | r] w'] eqn:Hrun; [vm_compute in Hrun; discriminate |].
    destruct (Hmulti (PyTuple [img_a; img_b]) r w' eq_refl Hrun)
      as (outs & h & Hdet & -> & _).
    vm_compute in Hdet. now injection Hdet as <- _.
  - destruct (detect ex_self img_a default_det_args [] w0)
      as [[e | r] w'] eqn:Hrun; [vm_compute in Hrun; discriminate |].
    destruct (Hsingle img_a r w' eq_refl Hrun) as (o & outs & h & Hdet & ->).
    exists outs. rewrite Hdet. cbn [fst].
    vm_compute in Hdet. injection Hdet as <- _ _.
    split; reflexivity.
Defined.
